(** * GossipPeer: reputation, backoff and idle accounting of a gossip peer

    A shallow embedding of [lib/worker/GossipPeer.js] of
    bedrock-ledger-consensus-continuity, and the properties of its
    [delete], [fail] and [success] methods.

    Conventions of the embedding.
    - JavaScript numbers that hold timestamps, counters and reputations are
      integers ([Z]); every use stays within the safe-integer range, where
      [Math.floor (a / b)] is the floor quotient [a / b] of [Z] for [b <> 0].
    - A property that may be [undefined] is an [option].
    - The object [this] and the world around it (clock, consensus state of
      the worker, peers collection) are threaded through a state monad whose
      completions are those of a JavaScript function body: normal, [return],
      or a thrown error. Every call of [Date.now()] is a reading of its own.
    - The peers collection behind [_peers] and [ledgerNode.peers] is not
      among the sources; it is a finite map from peer ids to records, after
      the storage interface of the specification, and the calls made to it
      are logged.
    - [logger.error] has no effect on the state and is left out. *)

From Stdlib Require Import ZArith String Lia.
From stdpp Require Import base option gmap strings.

Local Open Scope Z_scope.

(** ** Data model *)

(** [status.firstFailure = {reputation, time}] *)
Record FirstFailure := {
  firstFailure_reputation : Z;
  firstFailure_time : Z
}.

(** [status.idle = {time, localBlockHeight}] *)
Record Idle := {
  idle_time : Z;
  idle_localBlockHeight : Z
}.

(** A cursor object: an opaque token, of which the handlers read only
    [requiredBlockHeight] (which an object may lack). *)
Record Cursor := {
  cursor_token : string;
  cursor_requiredBlockHeight : option Z
}.

(** The values a [cursor] argument or [status.cursor] takes. *)
Inductive JsCursor :=
| CursorUndefined
| CursorNull
| CursorObject (c : Cursor).

(** [if(cursor)] *)
Definition truthy (c : JsCursor) : bool :=
  match c with
  | CursorObject _ => true
  | _ => false
  end.

(** [peer.status] *)
Record Status := {
  backoffUntil : Z;
  lastPullAt : Z;
  lastPushAt : Z;
  lastPullResult : string;
  cursor : JsCursor;
  requiredBlockHeight : option Z;
  consecutiveFailures : Z;
  firstFailure : option FirstFailure;
  idle : option Idle
}.

(** The peer record kept in the peers collection. *)
Record Peer := {
  peer_id : string;
  reputation : Z;
  recommended : bool;
  status : Status;
  sequence : Z
}.

(** The fields of a [GossipPeer] instance that its methods read or write
    ([id] is [_peer.id]; [worker] is part of the [World]). *)
Record GossipPeer := {
  _peer : Peer;
  _deleted : bool
}.

(** [config['ledger-consensus-continuity'].gossip.backoff]: the configuration
    file is not among the sources, so its values are parameters. *)
Record BackoffConfig := {
  minFailure : Z;
  maxFailure : Z;
  maxFailureGracePeriod : Z;
  minIdle : Z;
  maxIdle : Z;
  maxIdleGracePeriod : Z
}.

(** The grace periods are divisors in the handlers; the embedding of the
    divisions is exact for positive ones. *)
Definition config_ok (cfg : BackoffConfig) : Prop :=
  0 < maxFailureGracePeriod cfg ∧ 0 < maxIdleGracePeriod cfg.

(** [worker.consensusState] *)
Record ConsensusState := {
  blockHeight : Z;
  witnesses : gset string
}.

(** Calls made to the peers collection. *)
Inductive StoreCall :=
| PeersDelete (id : string)
| PeersUpdate (p : Peer)
| PeersCount (maxReputation : Z).

(** Everything outside of [this] that a method reads or writes.
    [clock n] is what the [n]-th call of [Date.now()] returns and [ticks]
    counts the calls made so far; [calls] lists the calls to the peers
    collection, latest first. *)
Record World := {
  clock : nat → Z;
  ticks : nat;
  consensusState : ConsensusState;
  peers : gmap string Peer;
  calls : list StoreCall
}.

Record St := {
  this : GossipPeer;
  world : World
}.

(** ** Field assignments *)

Definition set_backoffUntil (v : Z) (s : Status) : Status :=
  {| backoffUntil := v; lastPullAt := lastPullAt s; lastPushAt := lastPushAt s;
     lastPullResult := lastPullResult s; cursor := cursor s;
     requiredBlockHeight := requiredBlockHeight s;
     consecutiveFailures := consecutiveFailures s;
     firstFailure := firstFailure s; idle := idle s |}.

Definition set_lastPullAt (v : Z) (s : Status) : Status :=
  {| backoffUntil := backoffUntil s; lastPullAt := v; lastPushAt := lastPushAt s;
     lastPullResult := lastPullResult s; cursor := cursor s;
     requiredBlockHeight := requiredBlockHeight s;
     consecutiveFailures := consecutiveFailures s;
     firstFailure := firstFailure s; idle := idle s |}.

Definition set_lastPullResult (v : string) (s : Status) : Status :=
  {| backoffUntil := backoffUntil s; lastPullAt := lastPullAt s;
     lastPushAt := lastPushAt s; lastPullResult := v; cursor := cursor s;
     requiredBlockHeight := requiredBlockHeight s;
     consecutiveFailures := consecutiveFailures s;
     firstFailure := firstFailure s; idle := idle s |}.

Definition set_cursor (v : JsCursor) (s : Status) : Status :=
  {| backoffUntil := backoffUntil s; lastPullAt := lastPullAt s;
     lastPushAt := lastPushAt s; lastPullResult := lastPullResult s;
     cursor := v; requiredBlockHeight := requiredBlockHeight s;
     consecutiveFailures := consecutiveFailures s;
     firstFailure := firstFailure s; idle := idle s |}.

Definition set_requiredBlockHeight (v : option Z) (s : Status) : Status :=
  {| backoffUntil := backoffUntil s; lastPullAt := lastPullAt s;
     lastPushAt := lastPushAt s; lastPullResult := lastPullResult s;
     cursor := cursor s; requiredBlockHeight := v;
     consecutiveFailures := consecutiveFailures s;
     firstFailure := firstFailure s; idle := idle s |}.

Definition set_consecutiveFailures (v : Z) (s : Status) : Status :=
  {| backoffUntil := backoffUntil s; lastPullAt := lastPullAt s;
     lastPushAt := lastPushAt s; lastPullResult := lastPullResult s;
     cursor := cursor s; requiredBlockHeight := requiredBlockHeight s;
     consecutiveFailures := v;
     firstFailure := firstFailure s; idle := idle s |}.

Definition set_firstFailure (v : option FirstFailure) (s : Status) : Status :=
  {| backoffUntil := backoffUntil s; lastPullAt := lastPullAt s;
     lastPushAt := lastPushAt s; lastPullResult := lastPullResult s;
     cursor := cursor s; requiredBlockHeight := requiredBlockHeight s;
     consecutiveFailures := consecutiveFailures s;
     firstFailure := v; idle := idle s |}.

Definition set_idle (v : option Idle) (s : Status) : Status :=
  {| backoffUntil := backoffUntil s; lastPullAt := lastPullAt s;
     lastPushAt := lastPushAt s; lastPullResult := lastPullResult s;
     cursor := cursor s; requiredBlockHeight := requiredBlockHeight s;
     consecutiveFailures := consecutiveFailures s;
     firstFailure := firstFailure s; idle := v |}.

Definition set_reputation (v : Z) (p : Peer) : Peer :=
  {| peer_id := peer_id p; reputation := v; recommended := recommended p;
     status := status p; sequence := sequence p |}.

Definition set_status (v : Status) (p : Peer) : Peer :=
  {| peer_id := peer_id p; reputation := reputation p;
     recommended := recommended p; status := v; sequence := sequence p |}.

Definition set_sequence (v : Z) (p : Peer) : Peer :=
  {| peer_id := peer_id p; reputation := reputation p;
     recommended := recommended p; status := status p; sequence := v |}.

Definition set_world (w : World) (s : St) : St :=
  {| this := this s; world := w |}.

Definition set_this (g : GossipPeer) (s : St) : St :=
  {| this := g; world := world s |}.

(** ** The monad of method bodies *)

(** How a statement completes. *)
Inductive Completion (A : Type) :=
| Normal (a : A)
| Return
| Throw (e : string).
Arguments Normal {A} a.
Arguments Return {A}.
Arguments Throw {A} e.

Definition M (A : Type) : Type := St → Completion A * St.

#[global] Instance M_ret : MRet M := λ A a s, (Normal a, s).

#[global] Instance M_bind : MBind M := λ A B f m s,
  match m s with
  | (Normal a, s') => f a s'
  | (Return, s') => (Return, s')
  | (Throw e, s') => (Throw e, s')
  end.

Definition skip : M unit := mret tt.

(** [return;] *)
Definition return_ : M unit := λ s, (Return, s).

(** [throw new TypeError(...)] *)
Definition throw {A} (e : string) : M A := λ s, (Throw e, s).

(** A method: the body runs to completion and [return] ends the call. *)
Definition method (body : M unit) : M unit := λ s,
  match body s with
  | (Return, s') => (Normal tt, s')
  | r => r
  end.

(** Reading [o.f] where [o] may be [undefined]. *)
Definition member {A} (o : option A) : M A :=
  match o with
  | Some a => mret a
  | None => throw "TypeError"
  end.

Definition get_peer : M Peer := λ s, (Normal (_peer (this s)), s).

Definition get_status : M Status := λ s, (Normal (status (_peer (this s))), s).

Definition is_deleted : M bool := λ s, (Normal (_deleted (this s)), s).

(** An assignment to a field of [_peer]. *)
Definition peer_assign (f : Peer → Peer) : M unit := λ s,
  (Normal tt,
   set_this {| _peer := f (_peer (this s)); _deleted := _deleted (this s) |} s).

(** An assignment to a field of [_peer.status]. *)
Definition status_assign (f : Status → Status) : M unit :=
  peer_assign (λ p, set_status (f (status p)) p).

(** [this._deleted = v] *)
Definition deleted_assign (v : bool) : M unit := λ s,
  (Normal tt, set_this {| _peer := _peer (this s); _deleted := v |} s).

(** [this.worker.consensusState] *)
Definition worker_consensusState : M ConsensusState := λ s,
  (Normal (consensusState (world s)), s).

(** [Date.now()] *)
Definition Date_now : M Z := λ s,
  let w := world s in
  (Normal (clock w (ticks w)),
   set_world {| clock := clock w; ticks := S (ticks w);
                consensusState := consensusState w;
                peers := peers w; calls := calls w |} s).

(** [set.has(x)] of a [Set]. *)
Definition has (set : gset string) (x : string) : bool := bool_decide (x ∈ set).

(** [Math.floor(a / b)] for integers [a] and [b <> 0]. *)
Definition Math_floor_div (a b : Z) : Z := a / b.

(** [Math.ceil(a / b)] for integers [a] and [b <> 0]. *)
Definition Math_ceil_div (a b : Z) : Z := - ((- a) / b).

(** ** The peers collection *)

Definition store_step (c : StoreCall) (f : gmap string Peer → gmap string Peer)
    (w : World) : World :=
  {| clock := clock w; ticks := ticks w; consensusState := consensusState w;
     peers := f (peers w); calls := c :: calls w |}.

(** Modelled from the spec: [_peers.delete] of lib/peers.js, which is not
    among the sources. The spec has the peer record destroyed (storage
    interface [peers (get/put/delete/count)]): the record removed is the one
    of this peer, although the call site names the ledger node only. *)
Definition peers_delete (id : string) : M unit := λ s,
  (Normal tt, set_world (store_step (PeersDelete id) (delete id) (world s)) s).

(** Modelled from the spec: [_peers.update] of lib/peers.js, which is not
    among the sources; the [put] of the storage interface, keyed by peer id. *)
Definition peers_update (p : Peer) : M unit := λ s,
  (Normal tt,
   set_world (store_step (PeersUpdate p) (insert (peer_id p) p) (world s)) s).

(** Modelled from the spec: [count(maxReputation)] of the storage interface,
    the number of stored peers whose reputation is at most [maxReputation]. *)
Definition count (maxReputation : Z) (m : gmap string Peer) : Z :=
  Z.of_nat (size (filter (λ kv, reputation kv.2 ≤ maxReputation) m)).

(** Modelled from the spec: [ledgerNode.peers.count({maxReputation})], a
    read of the collection. *)
Definition peers_count (maxReputation : Z) : M Z := λ s,
  (Normal (count maxReputation (peers (world s))),
   set_world (store_step (PeersCount maxReputation) (λ m, m) (world s)) s).

(** ** GossipPeer.delete, GossipPeer.isDeleted *)

Definition delete_ : M unit :=
  method (
    deleted ← is_deleted;
    (if deleted : bool then return_ else skip);;
    p ← get_peer;
    peers_delete (peer_id p);;
    deleted_assign true).

Definition isDeleted (g : GossipPeer) : bool := _deleted g.

(** ** GossipPeer.fail, GossipPeer.success *)

(** The bodies of the two handlers are given block by block, in the order and
    with the comments of the source; [fail] and [success] run the blocks in
    sequence. *)

Section Handlers.

(** [const {backoff: backoffConfig} = config['ledger-consensus-continuity'].gossip] *)
Variable backoffConfig : BackoffConfig.

(** [fail], lines 75-106: the failure is recorded and the reputation updated.
    [error] is the text [error.toString()] yields. *)
Definition fail_reputation (error : string) : M unit :=
  status_assign (λ st, set_consecutiveFailures (consecutiveFailures st + 1) st);;
  now ← Date_now;
  status_assign (set_lastPullAt now);;
  status_assign (set_lastPullResult error);;
  status_assign (set_idle None);;
  (* handle reputation updates *)
  st ← get_status;
  if consecutiveFailures st =? 1 then
    (* store first failure stats and decrement reputation *)
    p ← get_peer;
    status_assign (set_firstFailure (Some
      {| firstFailure_reputation := reputation p;
         firstFailure_time := lastPullAt st |}));;
    peer_assign (λ p, set_reputation (reputation p - 1) p)
  else
    (* another consecutive failure, compute the new reputation *)
    now ← Date_now;
    ff ← member (firstFailure st);
    let totalFailTime := now - firstFailure_time ff in
    let points :=
      Math_floor_div totalFailTime (maxFailureGracePeriod backoffConfig) * 100 in
    let startReputation := firstFailure_reputation ff in
    peer_assign (set_reputation
      (Z.min (startReputation - 1) (startReputation - points))).

(** [fail], lines 108-118. *)
Definition fail_negative (cs : ConsensusState) : M unit :=
  p ← get_peer;
  if reputation p <? 0 then
    let isWitness := has (witnesses cs) (peer_id p) in
    if negb isWitness then
      (* peer has no reputation, remove it *)
      delete_;; return_
    else
      (* do not delete peer if they are presently a witness, just force
         their reputation to 0 *)
      peer_assign (set_reputation 0)
  else skip.

(** [fail], lines 120-123: determine next backoff. *)
Definition fail_backoff : M unit :=
  now ← Date_now;
  st ← get_status;
  status_assign (set_backoffUntil
    (now + Z.min (maxFailure backoffConfig)
                 (consecutiveFailures st * minFailure backoffConfig))).

(** [fail], lines 125-131: set cursor if specified. *)
Definition fail_cursor (cursor_arg : JsCursor) : M unit :=
  match cursor_arg with
  | CursorUndefined => skip
  | _ =>
    st ← get_status;
    status_assign (set_cursor (cursor st));;
    match cursor_arg with
    | CursorObject c =>
      status_assign (set_requiredBlockHeight (cursor_requiredBlockHeight c))
    | _ => skip
    end
  end.

(** Lines 133-135 and 238-240: update peer information in mongo peers
    collection. *)
Definition commit : M unit :=
  peer_assign (λ p, set_sequence (sequence p + 1) p);;
  p ← get_peer;
  peers_update p.

Definition fail (error : string) (cursor_arg : JsCursor) (fatal : bool) : M unit :=
  method (
    cs ← worker_consensusState;
    (* if the error was fatal (a protocol violation), remove the peer entirely *)
    (if fatal then delete_;; return_ else skip);;
    fail_reputation error;;
    fail_negative cs;;
    fail_backoff;;
    fail_cursor cursor_arg;;
    commit).

(** [success], lines 147-165: if the peer has a reputation of 0, it may be
    dropped. *)
Definition success_capacity (isWitness : bool) : M unit :=
  p ← get_peer;
  (* do not delete peer if they are presently a witness *)
  if negb isWitness && (reputation p =? 0) then
    (* if there is no room for the peer, drop it *)
    peerCount ← peers_count 0;
    if 100 <=? peerCount then delete_;; return_ else skip
  else skip.

(** [success], lines 167-178. *)
Definition success_reset (cursor_arg : JsCursor) : M unit :=
  now ← Date_now;
  status_assign (set_backoffUntil now);;
  now ← Date_now;
  status_assign (set_lastPullAt now);;
  status_assign (set_lastPullResult "success");;
  status_assign (set_cursor cursor_arg);;
  (match cursor_arg with
   | CursorObject c =>
     status_assign (set_requiredBlockHeight (cursor_requiredBlockHeight c))
   | _ => skip
   end);;
  status_assign (set_consecutiveFailures 0);;
  status_assign (set_firstFailure None).

(** [success], lines 219-226: the peer is idling but other peers are
    advancing, decrement reputation and set at least a minimal backoff. *)
Definition idle_penalty (cs : ConsensusState) (i : Idle) : M unit :=
  now ← Date_now;
  let totalIdleTime := now - idle_time i in
  let timePerPoint := Math_ceil_div (maxIdleGracePeriod backoffConfig) 100 in
  let points := Math_floor_div totalIdleTime timePerPoint in
  peer_assign (λ p, set_reputation (reputation p - points) p);;
  status_assign (set_idle (Some
    {| idle_time := idle_time i + points * timePerPoint;
       idle_localBlockHeight := blockHeight cs |}));;
  status_assign (λ st, set_backoffUntil
    (backoffUntil st
     + Z.min (minIdle backoffConfig * Z.max 1 points)
             (maxIdle backoffConfig)) st).

(** [success], lines 227-235. *)
Definition success_negative (isWitness : bool) : M unit :=
  p ← get_peer;
  if reputation p <? 0 then
    if negb isWitness then delete_;; return_
    else
      (* do not delete peer if they are presently a witness, just force
         their reputation to 0 *)
      peer_assign (set_reputation 0)
  else skip.

(** [success], lines 203-236: how reputation is computed on successes. *)
Definition success_reputation (cs : ConsensusState) (isWitness : bool)
    (mergeEventsReceived : bool) : M unit :=
  st ← get_status;
  if mergeEventsReceived then
    (* increase peer's reputation, it is not idle *)
    peer_assign (λ p, set_reputation (Z.min 100 (reputation p + 1)) p);;
    status_assign (set_idle None)
  else
    match idle st with
    | None =>
      (* peer just started idling *)
      now ← Date_now;
      status_assign (set_idle (Some
        {| idle_time := now; idle_localBlockHeight := blockHeight cs |}))
    | Some i =>
      if idle_localBlockHeight i =? blockHeight cs then
        (* peer is idling but so are other peers, increase idle start time *)
        now ← Date_now;
        status_assign (set_idle (Some
          {| idle_time := now;
             idle_localBlockHeight := idle_localBlockHeight i |}))
      else
        idle_penalty cs i;;
        success_negative isWitness
    end.

(** [mergeEventsReceived] is the truth value of the argument; the parameter
    default [cursor = null] replaces an [undefined] cursor. *)
Definition success (mergeEventsReceived : bool) (cursor_arg : JsCursor) : M unit :=
  method (
    let cursor_arg :=
      match cursor_arg with CursorUndefined => CursorNull | c => c end in
    cs ← worker_consensusState;
    p ← get_peer;
    let isWitness := has (witnesses cs) (peer_id p) in
    success_capacity isWitness;;
    success_reset cursor_arg;;
    success_reputation cs isWitness mergeEventsReceived;;
    commit).

End Handlers.

(** ** GossipPeer.fail called without an error *)

(** [fail], lines 75-80, when the call gives no error ([fail()] and
    [fail({})], which the default [= {}] of the parameter allows, or an
    [error] that is [undefined] or [null]): the failure is counted and the
    time read, and [error.toString()] throws a [TypeError]. *)
Definition fail_no_error : M unit :=
  status_assign (λ st, set_consecutiveFailures (consecutiveFailures st + 1) st);;
  now ← Date_now;
  status_assign (set_lastPullAt now);;
  throw "TypeError".

(** [fail({error, cursor, fatal})] with an [error] that may be missing;
    [Some error] carries the text [error.toString()] yields. *)
Definition fail_call (cfg : BackoffConfig) (error : option string)
    (cursor_arg : JsCursor) (fatal : bool) : M unit :=
  match error with
  | Some e => fail cfg e cursor_arg fatal
  | None =>
    method (
      cs ← worker_consensusState;
      (* if the error was fatal (a protocol violation), remove the peer entirely *)
      (if fatal then delete_;; return_ else skip);;
      fail_no_error)
  end.

(** ** Reading the result of a call *)

(** The instance after a call. *)
Definition this_after (r : Completion unit * St) : GossipPeer := this r.2.

(** The peer record the instance holds after a call. *)
Definition peer_after (r : Completion unit * St) : Peer := _peer (this r.2).

(** The world after a call. *)
Definition world_after (r : Completion unit * St) : World := world r.2.

(** The state after [n] calls of a method in a row. *)
Definition repeat_call (m : M unit) (n : nat) (s : St) : St :=
  Nat.iter n (λ s', (m s').2) s.

(** The readings of the clock to come: [reading w 0] is what the next call
    of [Date.now()] returns, [reading w 1] what the one after it returns. *)
Definition reading (w : World) (k : nat) : Z := clock w (k + ticks w)%nat.

(** Whether the peer is a witness at present. *)
Definition is_witness (w : World) (p : Peer) : bool :=
  has (witnesses (consensusState w)) (peer_id p).

(** What the rule for negative reputations leaves of an updated reputation
    [r] in the record: a witness never keeps a negative one. *)
Definition settled (w : World) (p : Peer) (r : Z) : Z :=
  if (r <? 0) && is_witness w p then 0 else r.

(** ** The quantities of the handlers *)

(** [timePerPoint = Math.ceil(maxIdleGracePeriod / 100)] *)
Definition timePerPoint (cfg : BackoffConfig) : Z :=
  Math_ceil_div (maxIdleGracePeriod cfg) 100.

(** [points = Math.floor(totalIdleTime / timePerPoint)] of a call of
    [success] that finds the idle record [i]; the time is the third reading
    of the call. *)
Definition idle_points (cfg : BackoffConfig) (w : World) (i : Idle) : Z :=
  Math_floor_div (reading w 2 - idle_time i) (timePerPoint cfg).

(** [Math.min(minIdle * Math.max(1, points), maxIdle)] *)
Definition idle_backoff (cfg : BackoffConfig) (points : Z) : Z :=
  Z.min (minIdle cfg * Z.max 1 points) (maxIdle cfg).

(** The capacity check of [success] ends the call: the peer is not a witness,
    its reputation is 0 and the collection counts 100 or more peers of
    reputation at most 0. *)
Definition capacity_drop (s : St) : bool :=
  negb (is_witness (world s) (_peer (this s)))
  && (reputation (_peer (this s)) =? 0)
  && (100 <=? count 0 (peers (world s))).

(** The reputation update of a non-fatal [fail] assigns [updated]. *)
Definition fail_updates (cfg : BackoffConfig) (s : St) (updated : Z) : Prop :=
  let p := _peer (this s) in
  let cf := consecutiveFailures (status p) in
  (cf + 1 = 1 ∧ updated = reputation p - 1) ∨
  (cf + 1 ≠ 1 ∧ ∃ ff, firstFailure (status p) = Some ff ∧
     let start := firstFailure_reputation ff in
     let elapsed := reading (world s) 1 - firstFailure_time ff in
     updated =
       Z.min (start - 1) (start - elapsed / maxFailureGracePeriod cfg * 100)).

(** The idle penalty of a [success] without merge events assigns [updated]:
    the call gets past the capacity check and finds an idle record of another
    block height. *)
Definition idle_penalty_updates (cfg : BackoffConfig) (s : St) (updated : Z) : Prop :=
  let p := _peer (this s) in
  capacity_drop s = false ∧
  ∃ i, idle (status p) = Some i ∧
       idle_localBlockHeight i ≠ blockHeight (consensusState (world s)) ∧
       updated = reputation p - idle_points cfg (world s) i.

(** The call wrote the record the instance holds to the collection, as the
    last thing it did there, and left the instance as live as it was. *)
Definition retained (s : St) (r : Completion unit * St) : Prop :=
  r.1 = Normal tt ∧
  isDeleted (this_after r) = isDeleted (this s) ∧
  head (calls (world_after r)) = Some (PeersUpdate (peer_after r)) ∧
  peers (world_after r) !! peer_id (_peer (this s)) = Some (peer_after r).

(** The call deleted the peer: the instance is deleted, no record was
    written, and the record of the peer is gone from the collection (by a
    deletion that is the last call there), unless the instance was deleted
    before. *)
Definition dropped (s : St) (r : Completion unit * St) : Prop :=
  r.1 = Normal tt ∧
  isDeleted (this_after r) = true ∧
  (∀ q, PeersUpdate q ∈ calls (world_after r) → PeersUpdate q ∈ calls (world s)) ∧
  (isDeleted (this s) = false →
     head (calls (world_after r)) =
       Some (PeersDelete (peer_id (_peer (this s)))) ∧
     peers (world_after r) !! peer_id (_peer (this s)) = None).

(** ** Invariants *)

(** Successive readings of the clock do not decrease. *)
Definition monotone_clock (w : World) : Prop :=
  ∀ n, clock w n ≤ clock w (S n).

Definition reputation_bounded (p : Peer) : Prop :=
  0 ≤ reputation p ≤ 100.

(** What the handlers keep true of the record of a peer: its reputation and
    the one snapshotted at the first failure are within bounds, and the idle
    time is not ahead of the clock. *)
Definition peer_inv (w : World) (p : Peer) : Prop :=
  reputation_bounded p ∧
  (∀ ff, firstFailure (status p) = Some ff →
     0 ≤ firstFailure_reputation ff ≤ 100) ∧
  (∀ i, idle (status p) = Some i → idle_time i ≤ reading w 0).

(** Every stored record has a bounded reputation, and so has the record of
    an instance that is not deleted. *)
Definition state_inv (s : St) : Prop :=
  (∀ id q, peers (world s) !! id = Some q → reputation_bounded q) ∧
  (isDeleted (this s) = false → peer_inv (world s) (_peer (this s))).

(** ** Gossip sessions in a row *)

(** The outcome of a gossip session with the peer, as reported to it. *)
Inductive Call :=
| Fail (error : string) (cursor_arg : JsCursor) (fatal : bool)
| Success (mergeEventsReceived : bool) (cursor_arg : JsCursor).

Definition handle (cfg : BackoffConfig) (c : Call) : M unit :=
  match c with
  | Fail error cursor_arg fatal => fail cfg error cursor_arg fatal
  | Success mergeEventsReceived cursor_arg =>
    success cfg mergeEventsReceived cursor_arg
  end.

(** The worker's consensus state at the time of a session. *)
Definition set_consensusState (cs : ConsensusState) (s : St) : St :=
  let w := world s in
  set_world {| clock := clock w; ticks := ticks w; consensusState := cs;
               peers := peers w; calls := calls w |} s.

(** The sessions of [l] one after the other, each under the consensus state
    the worker has by then; an instance that is deleted is not used again. *)
Fixpoint sessions (cfg : BackoffConfig) (l : list (ConsensusState * Call))
    (s : St) : St :=
  match l with
  | [] => s
  | (cs, c) :: l' =>
    if isDeleted (this s) then s
    else sessions cfg l' (handle cfg c (set_consensusState cs s)).2
  end.

(** ** Sample data *)

Definition sample_config : BackoffConfig :=
  {| minFailure := 1000; maxFailure := 60000; maxFailureGracePeriod := 3600000;
     minIdle := 500; maxIdle := 10000; maxIdleGracePeriod := 300000 |}.

Definition sample_status : Status :=
  {| backoffUntil := 0; lastPullAt := 0; lastPushAt := 0;
     lastPullResult := "success"; cursor := CursorNull;
     requiredBlockHeight := None; consecutiveFailures := 0;
     firstFailure := None; idle := None |}.

Definition sample_peer (id : string) (rep : Z) (st : Status) : Peer :=
  {| peer_id := id; reputation := rep; recommended := false; status := st;
     sequence := 0 |}.

(** A clock that starts at 1000000 and advances by a second per reading. *)
Definition sample_clock (n : nat) : Z := 1000000 + 1000 * Z.of_nat n.

Definition sample_world (h : Z) (ws : gset string) (m : gmap string Peer) : World :=
  {| clock := sample_clock; ticks := 0;
     consensusState := {| blockHeight := h; witnesses := ws |};
     peers := m; calls := [] |}.

Definition sample_state (p : Peer) (w : World) : St :=
  {| this := {| _peer := p; _deleted := false |}; world := w |}.

Definition sample_cursor : Cursor :=
  {| cursor_token := "c1"; cursor_requiredBlockHeight := Some 7 |}.

(** A peer that has failed once, at time 1000, with a reputation of 50. *)
Definition failing_status : Status :=
  set_firstFailure
    (Some {| firstFailure_reputation := 50; firstFailure_time := 1000 |})
    (set_consecutiveFailures 1 sample_status).

(** A peer that was found idle at time 999000 and block height 3. *)
Definition idle_status : Status :=
  set_idle (Some {| idle_time := 999000; idle_localBlockHeight := 3 |})
    sample_status.

(** The identifier of the [n]-th of a hundred peers: two decimal digits. *)
Definition two_digits (n : nat) : string :=
  String (Ascii.ascii_of_nat (48 + n / 10))
    (String (Ascii.ascii_of_nat (48 + n mod 10)) EmptyString).

(** A collection of a hundred peers of reputation 0. *)
Definition crowd : gmap string Peer :=
  list_to_map
    (map (λ n, (two_digits n, sample_peer (two_digits n) 0 sample_status))
       (seq 0 100)).

(** An instance for the peer [p], whose record is stored next to the hundred
    of [crowd], at block height [h] and with no witnesses. *)
Definition crowded_state (p : Peer) (h : Z) : St :=
  sample_state p (sample_world h ∅ (<[peer_id p := p]> crowd)).

(** A clock that advances by a second per reading, and is set back by eight
    seconds between its third and its fourth reading. *)
Definition stepping_back_clock (n : nat) : Z :=
  if (n <? 3)%nat then 1000000 + 1000 * Z.of_nat n
  else 991000 + 1000 * Z.of_nat n.

(** A live instance for the peer [p], whose record is the one stored, under
    the clock [clk], at block height [h] and with no witnesses. *)
Definition stored_state (p : Peer) (clk : nat → Z) (h : Z) : St :=
  {| this := {| _peer := p; _deleted := false |};
     world := {| clock := clk; ticks := 0;
                 consensusState := {| blockHeight := h; witnesses := ∅ |};
                 peers := {[ peer_id p := p ]}; calls := [] |} |}.

(** A peer whose idle record, at block height 3, is ten seconds ahead of the
    first reading of the sample clock. *)
Definition idle_ahead_status : Status :=
  set_idle (Some {| idle_time := 1010000; idle_localBlockHeight := 3 |})
    sample_status.

(** ** GossipPeer: constructor and accessors *)

(** What an argument of the constructor may hold: nothing, [null], a value
    that is not an object (a number, a string, a function), or an object. *)
Inductive JsArg (A : Type) :=
| ArgUndefined
| ArgNull
| ArgOther
| ArgObject (a : A).
Arguments ArgUndefined {A}.
Arguments ArgNull {A}.
Arguments ArgOther {A}.
Arguments ArgObject {A} a.

(** [v && typeof v === 'object'] *)
Definition is_object {A} (v : JsArg A) : bool :=
  match v with
  | ArgObject _ => true
  | _ => false
  end.

(** [worker.ledgerNode], of which the constructor reads [id]. *)
Record LedgerNode := {
  ledgerNode_id : option string
}.

(** The part of a worker the constructor reads; [ledgerNode] may be missing. *)
Record Worker := {
  worker_ledgerNode : option LedgerNode
}.

(** The fields the constructor sets: [id], [ledgerNodeId], and [_peer] and
    [_deleted], which make the [GossipPeer] of the methods. *)
Record Constructed := {
  constructed_id : string;
  constructed_ledgerNodeId : option string;
  constructed_instance : GossipPeer
}.

(** How the constructor fails: its two [TypeError]s, and the one of reading
    [id] of a missing [worker.ledgerNode]. *)
Inductive ConstructorError :=
| PeerRequired
| WorkerRequired
| LedgerNodeUndefined.

(** [new GossipPeer({peer, worker})] *)
Definition GossipPeer_new (peer : JsArg Peer) (worker : JsArg Worker) :
    ConstructorError + Constructed :=
  match peer with
  | ArgObject p =>
    match worker with
    | ArgObject wk =>
      match worker_ledgerNode wk with
      | Some ln =>
        inr {| constructed_id := peer_id p;
               constructed_ledgerNodeId := ledgerNode_id ln;
               constructed_instance := {| _peer := p; _deleted := false |} |}
      | None => inl LedgerNodeUndefined
      end
    | _ => inl WorkerRequired
    end
  | _ => inl PeerRequired
  end.

(** [getStatus()] *)
Definition getStatus (g : GossipPeer) : Status := status (_peer g).

(** [isRecommended()] *)
Definition isRecommended (g : GossipPeer) : bool := recommended (_peer g).

(** [isNotifier()]: [status.lastPushAt > status.lastPullAt] *)
Definition isNotifier (g : GossipPeer) : bool :=
  lastPullAt (status (_peer g)) <? lastPushAt (status (_peer g)).

(** ** Outcomes of a call *)

(** The call returned normally and the instance is not deleted. *)
Definition live_after (r : Completion unit * St) : Prop :=
  r.1 = Normal tt ∧ isDeleted (this_after r) = false.

(** Whether the call is a fatal failure. *)
Definition is_fatal (c : Call) : bool :=
  match c with
  | Fail _ _ fatal => fatal
  | Success _ _ => false
  end.

(** Whether the call is a failure that is not fatal. *)
Definition is_failure (c : Call) : bool :=
  match c with
  | Fail _ _ fatal => negb fatal
  | Success _ _ => false
  end.

(** ** Evaluating a method body *)

(** [run] evaluates the monadic code of the handlers; [paths] follows every
    path through it, turning the tests on the way into hypotheses; [enter]
    names the components of the state. *)
Ltac run :=
  cbv beta iota zeta delta
    [fail fail_reputation fail_negative fail_backoff fail_cursor commit
     success success_capacity success_reset idle_penalty success_negative
     success_reputation delete_ method mbind M_bind mret M_ret skip return_ throw
     member get_peer get_status is_deleted peer_assign status_assign
     deleted_assign worker_consensusState Date_now peers_delete peers_update
     peers_count Math_floor_div Math_ceil_div set_this set_world store_step
     has truthy
     set_backoffUntil set_lastPullAt set_lastPullResult set_cursor
     set_requiredBlockHeight set_consecutiveFailures set_firstFailure set_idle
     set_reputation set_status set_sequence
     this world _peer _deleted peer_id reputation recommended status sequence
     backoffUntil lastPullAt lastPushAt lastPullResult cursor
     requiredBlockHeight consecutiveFailures firstFailure idle
     clock ticks consensusState peers calls blockHeight witnesses
     fst snd Nat.add
     peer_after this_after world_after settled is_witness isDeleted reading
     idle_backoff idle_points timePerPoint capacity_drop];
  cbn [negb andb orb firstFailure_reputation firstFailure_time idle_time
       idle_localBlockHeight cursor_requiredBlockHeight].

Ltac branch_step :=
  match goal with
  | |- context [match ?c with CursorUndefined => _ | _ => _ end] =>
    is_var c; destruct c
  | |- context [negb ?b] => destruct b eqn:?
  | |- context [?b && _] => destruct b eqn:?
  | |- context [?b || _] => destruct b eqn:?
  | |- context [if ?b then _ else _] => destruct b eqn:?
  | |- context [match ?o with Some _ => _ | None => _ end] => destruct o eqn:?
  | |- ∀ _, _ => intro
  | |- _ ∧ _ => split
  end.

Ltac reflect_step :=
  match goal with
  | H : _ ∧ _ |- _ => destruct H
  | H : (_ =? _) = true |- _ => apply Z.eqb_eq in H
  | H : (_ =? _) = false |- _ => apply Z.eqb_neq in H
  | H : (_ <? _) = true |- _ => apply Z.ltb_lt in H
  | H : (_ <? _) = false |- _ => apply Z.ltb_ge in H
  | H : (_ <=? _) = true |- _ => apply Z.leb_le in H
  | H : (_ <=? _) = false |- _ => apply Z.leb_gt in H
  | H : bool_decide _ = true |- _ => apply bool_decide_eq_true in H
  | H : bool_decide _ = false |- _ => apply bool_decide_eq_false in H
  end.

Ltac paths :=
  repeat (run; try discriminate; branch_step);
  run; try discriminate; try reflexivity; try assumption;
  repeat reflect_step; simplify_eq;
  cbn [firstFailure_reputation firstFailure_time idle_time
       idle_localBlockHeight cursor_requiredBlockHeight] in *;
  try reflexivity; try assumption; try congruence; try lia.

Ltac enter s :=
  cbv zeta; intros;
  destruct s as [[[s_id s_rep s_rec
                     [s_bu s_lpa s_lpu s_lpr s_cur s_rbh s_cf s_ff s_idl]
                     s_sq] s_d]
                 [s_clk s_tk [s_bh s_ws] s_prs s_cls]];
  simpl in *.

(** The same for goals about the collection and the log of calls to it. *)
Ltac store_facts :=
  cbv beta iota zeta delta [retained dropped];
  repeat (run; try discriminate; branch_step);
  run; simpl; try discriminate; try reflexivity;
  try (rewrite lookup_insert_eq; reflexivity);
  try (rewrite lookup_delete_eq; reflexivity);
  try assumption;
  try (rewrite !elem_of_cons in *; intuition discriminate);
  repeat reflect_step; simplify_eq;
  try reflexivity; try assumption; try congruence; try lia.

(** Case analysis on the tests of [settled]. *)
Ltac settle_cases :=
  repeat match goal with
         | H : context [?a <? 0] |- _ => destruct (Z.ltb_spec a 0)
         | |- context [?a <? 0] => destruct (Z.ltb_spec a 0)
         end;
  cbn [andb] in *;
  repeat match goal with
         | H : context [if ?b then _ else _] |- _ => destruct b
         | |- context [if ?b then _ else _] => destruct b
         end;
  lia.

(** [computed] settles a closed goal by evaluation; [feed H] proves the
    first hypothesis of [H] that way and applies [H] to it. *)
Ltac computed :=
  vm_compute;
  repeat match goal with |- _ ∧ _ => split end;
  first [reflexivity | discriminate].

Ltac feed H :=
  match type of H with
  | ?A → _ =>
    let HA := fresh "HA" in
    assert (HA : A) by computed; specialize (H HA); clear HA
  end.

(** * Properties *)

(** ** delete *)

Lemma delete_deleted (s : St) :
  _deleted (this s) = true → delete_ s = (Normal tt, s).
Proof.
  intros Hd. unfold delete_, method, mbind, M_bind, is_deleted. simpl.
  rewrite Hd. reflexivity.
Qed.

Lemma delete_fresh (s : St) :
  _deleted (this s) = false →
  delete_ s =
    (Normal tt,
     {| this := {| _peer := _peer (this s); _deleted := true |};
        world := store_step (PeersDelete (peer_id (_peer (this s))))
                   (delete (peer_id (_peer (this s)))) (world s) |}).
Proof.
  intros Hd. unfold delete_, method, mbind, M_bind, is_deleted. simpl.
  rewrite Hd. reflexivity.
Qed.

Lemma repeat_delete_deleted (n : nat) (s : St) :
  _deleted (this s) = true → repeat_call delete_ n s = s.
Proof.
  intros Hd. induction n as [|n IH]; [reflexivity|].
  unfold repeat_call in *. simpl. rewrite IH, (delete_deleted s Hd). reflexivity.
Qed.

(** C10. [delete] is idempotent: the first call on an instance that is not
    yet deleted removes the record from the peers collection (one call to the
    collection) and sets the flag; from then on [isDeleted] is true and every
    further call returns with the instance and the world, the log of calls to
    the collection included, as they were. *)
Theorem delete_idempotent (s : St) :
  let s1 := (delete_ s).2 in
  (delete_ s).1 = Normal tt ∧
  isDeleted (this s1) = true ∧
  _peer (this s1) = _peer (this s) ∧
  world s1 =
    (if isDeleted (this s) then world s
     else store_step (PeersDelete (peer_id (_peer (this s))))
            (delete (peer_id (_peer (this s)))) (world s)) ∧
  (∀ n, repeat_call delete_ n s1 = s1) ∧
  (∀ s2, isDeleted (this s2) = true → delete_ s2 = (Normal tt, s2)).
Proof.
  unfold isDeleted. destruct (_deleted (this s)) eqn:Hd.
  - rewrite (delete_deleted s Hd). simpl.
    split; [reflexivity|]. split; [exact Hd|]. split; [reflexivity|].
    split; [reflexivity|]. split; [|exact delete_deleted].
    intros n. apply repeat_delete_deleted, Hd.
  - rewrite (delete_fresh s Hd). simpl.
    split; [reflexivity|]. split; [reflexivity|]. split; [reflexivity|].
    split; [reflexivity|]. split; [|exact delete_deleted].
    intros n. apply repeat_delete_deleted. reflexivity.
Qed.

(** ** fail *)

(** C7. A fatal failure does what [delete] does and nothing else: the call
    returns normally with the instance deleted, the peer record it holds is
    as before (reputation, consecutiveFailures, backoff and cursor included),
    the clock has not been read, and the only call to the peers collection,
    if the instance was not deleted yet, is the deletion. *)
Theorem fail_fatal_deletes (cfg : BackoffConfig) (error : string)
    (cursor_arg : JsCursor) (s : St) :
  let r := fail cfg error cursor_arg true s in
  r = delete_ s ∧
  r.1 = Normal tt ∧
  isDeleted (this_after r) = true ∧
  peer_after r = _peer (this s) ∧
  ticks (world_after r) = ticks (world s) ∧
  calls (world_after r) =
    (if isDeleted (this s) then calls (world s)
     else PeersDelete (peer_id (_peer (this s))) :: calls (world s)) ∧
  peers (world_after r) =
    (if isDeleted (this s) then peers (world s)
     else delete (peer_id (_peer (this s))) (peers (world s))).
Proof.
  enter s. run. destruct s_d; simpl; repeat split; reflexivity.
Qed.

(** C1. The reputation update of a non-fatal failure (lines 75-106)
    increments [consecutiveFailures]. If that makes it 1, [firstFailure]
    becomes the snapshot of the reputation the peer had and of the time of
    the failure (the reading stored in [lastPullAt]), and the reputation
    decreases by exactly 1. Otherwise, with [start] the snapshotted
    reputation and [elapsed] the time since the first failure, the reputation
    becomes
    [min (start - 1) (start - floor (elapsed / maxFailureGracePeriod) * 100)].
    The call leaves the counter and the snapshot as updated, and the
    reputation as updated and then passed through the rule for negative
    reputations ([settled]). *)
Theorem fail_reputation_update (cfg : BackoffConfig) (error : string) (s : St) :
  config_ok cfg →
  let p := _peer (this s) in
  let w := world s in
  let cf := consecutiveFailures (status p) in
  let p1 := peer_after (fail_reputation cfg error s) in
  consecutiveFailures (status p1) = cf + 1 ∧
  (cf + 1 = 1 →
     firstFailure (status p1) =
       Some {| firstFailure_reputation := reputation p;
               firstFailure_time := reading w 0 |} ∧
     lastPullAt (status p1) = reading w 0 ∧
     reputation p1 = reputation p - 1) ∧
  (cf + 1 ≠ 1 → ∀ ff, firstFailure (status p) = Some ff →
     let start := firstFailure_reputation ff in
     let elapsed := reading w 1 - firstFailure_time ff in
     firstFailure (status p1) = Some ff ∧
     reputation p1 =
       Z.min (start - 1) (start - elapsed / maxFailureGracePeriod cfg * 100)) ∧
  (cf + 1 = 1 ∨ is_Some (firstFailure (status p)) →
   ∀ cursor_arg,
     let p' := peer_after (fail cfg error cursor_arg false s) in
     consecutiveFailures (status p') = consecutiveFailures (status p1) ∧
     firstFailure (status p') = firstFailure (status p1) ∧
     reputation p' = settled w p (reputation p1)).
Proof.
  intros Hcfg. cbv zeta. split; [|split; [|split]].
  - enter s. paths.
  - enter s. paths.
  - enter s. paths.
  - intros [Hcf|[f0 Hf0]] cursor_arg; [revert Hcf|revert Hf0]; enter s; paths.
Qed.

Lemma fail_reputation_update_witness :
  config_ok sample_config ∧
  let s := sample_state (sample_peer "alpha" 50 failing_status)
             (sample_world 3 ∅ ∅) in
  let p1 := peer_after (fail_reputation sample_config "NetworkError" s) in
  let p' := peer_after (fail sample_config "NetworkError" CursorUndefined false s) in
  consecutiveFailures (status p1) = 2 ∧ reputation p1 = 49 ∧ reputation p' = 49.
Proof.
  assert (Hc : config_ok sample_config) by (unfold config_ok; simpl; lia).
  split; [exact Hc|].
  pose proof (fail_reputation_update sample_config "NetworkError"
    (sample_state (sample_peer "alpha" 50 failing_status) (sample_world 3 ∅ ∅))
    Hc) as H.
  cbv zeta in H. destruct H as (H1 & _ & H3 & H4).
  split; [exact H1|].
  destruct (H3 ltac:(simpl; lia) _ eq_refl) as [_ H5].
  split; [rewrite H5; vm_compute; reflexivity|].
  destruct (H4 ltac:(right; eexists; reflexivity) CursorUndefined) as (_ & _ & H6).
  rewrite H6, H5. vm_compute. reflexivity.
Defined.

(** C9. After a non-fatal failure that returns with the peer not deleted,
    [backoffUntil] is the time of the call's last reading of the clock plus
    [min maxFailure (consecutiveFailures * minFailure)], where
    [consecutiveFailures] is the incremented value, which the record holds. *)
Theorem fail_backoff_until (cfg : BackoffConfig) (error : string)
    (cursor_arg : JsCursor) (s : St) :
  let r := fail cfg error cursor_arg false s in
  let w := world s in
  let cf' := consecutiveFailures (status (_peer (this s))) + 1 in
  let k := if cf' =? 1 then 1%nat else 2%nat in
  r.1 = Normal tt →
  isDeleted (this_after r) = false →
  consecutiveFailures (status (peer_after r)) = cf' ∧
  ticks (world_after r) = S (k + ticks w) ∧
  backoffUntil (status (peer_after r)) =
    reading w k + Z.min (maxFailure cfg) (cf' * minFailure cfg).
Proof.
  enter s. revert H H0. run. paths.
Qed.

Lemma fail_backoff_until_witness :
  let s := sample_state (sample_peer "alpha" 50 failing_status)
             (sample_world 3 ∅ ∅) in
  let r := fail sample_config "NetworkError" CursorUndefined false s in
  r.1 = Normal tt ∧ isDeleted (this_after r) = false ∧
  backoffUntil (status (peer_after r)) = 1004000.
Proof.
  assert (H1 : (fail sample_config "NetworkError" CursorUndefined false
                  (sample_state (sample_peer "alpha" 50 failing_status)
                     (sample_world 3 ∅ ∅))).1 = Normal tt)
    by (vm_compute; reflexivity).
  assert (H2 : isDeleted (this_after
                 (fail sample_config "NetworkError" CursorUndefined false
                    (sample_state (sample_peer "alpha" 50 failing_status)
                       (sample_world 3 ∅ ∅)))) = false)
    by (vm_compute; reflexivity).
  split; [exact H1|]. split; [exact H2|].
  destruct (fail_backoff_until sample_config "NetworkError" CursorUndefined _ H1 H2)
    as (_ & _ & H3).
  rewrite H3. vm_compute. reflexivity.
Defined.

(** C6. [fail] never changes [status.cursor], whatever cursor it is given
    (the assignment [status.cursor = status.cursor] has no effect). A
    non-fatal failure that returns with the peer not deleted leaves in
    [status.requiredBlockHeight] the [requiredBlockHeight] of the cursor
    supplied when that cursor is truthy, and the former value when it is
    not. *)
Theorem fail_cursor_unchanged (cfg : BackoffConfig) (error : string)
    (cursor_arg : JsCursor) (fatal : bool) (s : St) :
  let r := fail cfg error cursor_arg fatal s in
  let st := status (_peer (this s)) in
  let st' := status (peer_after r) in
  cursor st' = cursor st ∧
  (fatal = false → r.1 = Normal tt → isDeleted (this_after r) = false →
     requiredBlockHeight st' =
       match cursor_arg with
       | CursorObject c => cursor_requiredBlockHeight c
       | _ => requiredBlockHeight st
       end) ∧
  (truthy cursor_arg = false → requiredBlockHeight st' = requiredBlockHeight st).
Proof.
  enter s. run. paths.
Qed.

Lemma fail_cursor_unchanged_witness :
  let s := sample_state (sample_peer "alpha" 50 failing_status)
             (sample_world 3 ∅ ∅) in
  let r := fail sample_config "NetworkError" (CursorObject sample_cursor) false s in
  cursor (status (peer_after r)) = CursorNull ∧
  requiredBlockHeight (status (peer_after r)) = Some 7.
Proof.
  destruct (fail_cursor_unchanged sample_config "NetworkError"
              (CursorObject sample_cursor) false
              (sample_state (sample_peer "alpha" 50 failing_status)
                 (sample_world 3 ∅ ∅))) as (H1 & H2 & _).
  split; [exact H1|].
  apply H2; vm_compute; reflexivity.
Defined.

(** ** Floor and ceiling of a quotient *)

Lemma Math_floor_div_spec (a b : Z) :
  0 < b → b * Math_floor_div a b ≤ a < b * (Math_floor_div a b + 1).
Proof.
  intros Hb. unfold Math_floor_div.
  pose proof (Z.mul_div_le a b Hb). pose proof (Z.mul_succ_div_gt a b Hb). lia.
Qed.

Lemma Math_ceil_div_spec (a b : Z) :
  0 < b → b * (Math_ceil_div a b - 1) < a ≤ b * Math_ceil_div a b.
Proof.
  intros Hb. unfold Math_ceil_div.
  pose proof (Z.mul_div_le (- a) b Hb). pose proof (Z.mul_succ_div_gt (- a) b Hb).
  lia.
Qed.

Lemma timePerPoint_pos (cfg : BackoffConfig) :
  config_ok cfg → 0 < timePerPoint cfg.
Proof.
  intros [_ H]. unfold timePerPoint.
  pose proof (Math_ceil_div_spec (maxIdleGracePeriod cfg) 100). lia.
Qed.

(** ** success *)

(** C8. The reset of [success] (lines 167-178) sets [consecutiveFailures]
    to 0 (and drops [firstFailure]), [backoffUntil] and [lastPullAt] to the
    current time (one reading of the clock each), [lastPullResult] to
    "success", stores the cursor supplied and, when that cursor is truthy,
    its [requiredBlockHeight]. A call of [success] that returns with the
    peer not deleted leaves all of this in the record, but for the backoff
    that the idle penalty adds to [backoffUntil]; and if merge events were
    received the reputation is [min 100 (reputation + 1)] and the idle record
    is cleared. *)
Theorem success_resets (cfg : BackoffConfig) (mergeEventsReceived : bool)
    (cursor_arg : JsCursor) (s : St) :
  let r := success cfg mergeEventsReceived cursor_arg s in
  let p := _peer (this s) in
  let w := world s in
  let st := status p in
  let p' := peer_after r in
  let st' := status p' in
  let stored := match cursor_arg with CursorUndefined => CursorNull | c => c end in
  let st1 := status (peer_after (success_reset stored s)) in
  isDeleted (this_after r) = false →
  (consecutiveFailures st1 = 0 ∧
   firstFailure st1 = None ∧
   backoffUntil st1 = reading w 0 ∧
   lastPullAt st1 = reading w 1 ∧
   lastPullResult st1 = "success" ∧
   cursor st1 = stored ∧
   requiredBlockHeight st1 =
     match cursor_arg with
     | CursorObject c => cursor_requiredBlockHeight c
     | _ => requiredBlockHeight st
     end) ∧
  r.1 = Normal tt ∧
  consecutiveFailures st' = 0 ∧
  firstFailure st' = None ∧
  lastPullAt st' = lastPullAt st1 ∧
  lastPullResult st' = "success" ∧
  cursor st' = stored ∧
  requiredBlockHeight st' = requiredBlockHeight st1 ∧
  backoffUntil st' =
    backoffUntil st1 +
    match idle st with
    | Some i =>
      if mergeEventsReceived
         || (idle_localBlockHeight i =? blockHeight (consensusState w))
      then 0
      else idle_backoff cfg (idle_points cfg w i)
    | None => 0
    end ∧
  (mergeEventsReceived = true →
     reputation p' = Z.min 100 (reputation p + 1) ∧ idle st' = None).
Proof.
  cbv zeta. intros Hd. split.
  - clear Hd. enter s. paths.
  - revert Hd. enter s. revert Hd. paths.
Qed.

Lemma success_resets_witness :
  let s := sample_state (sample_peer "alpha" 100 failing_status)
             (sample_world 3 ∅ ∅) in
  let r := success sample_config true (CursorObject sample_cursor) s in
  isDeleted (this_after r) = false ∧
  consecutiveFailures (status (peer_after r)) = 0 ∧
  backoffUntil (status (peer_after r)) = 1000000 ∧
  reputation (peer_after r) = 100.
Proof.
  assert (H : isDeleted (this_after
                (success sample_config true (CursorObject sample_cursor)
                   (sample_state (sample_peer "alpha" 100 failing_status)
                      (sample_world 3 ∅ ∅)))) = false)
    by (vm_compute; reflexivity).
  split; [exact H|].
  destruct (success_resets sample_config true (CursorObject sample_cursor) _ H)
    as (_ & _ & H1 & _ & _ & _ & _ & _ & H2 & H3).
  split; [exact H1|]. split; [rewrite H2; vm_compute; reflexivity|].
  destruct (H3 eq_refl) as [H4 _]. rewrite H4. vm_compute. reflexivity.
Defined.

(** C2. A call of [success] without merge events that gets past the capacity
    check treats the idle record in one of three ways. If there is none, one
    is created with the current time and block height. If there is one of the
    current block height, its time is set to the current time. In both cases
    nothing else changes: no penalty. If there is one of another block height
    (for heights that only grow: the height has advanced), the penalty (lines
    219-226) applies: with [timePerPoint] the ceiling of
    [maxIdleGracePeriod / 100] and [points] the floor of
    [(now - idle.time) / timePerPoint], [points] is subtracted from the
    reputation, [idle.time] advances by [points * timePerPoint],
    [idle.localBlockHeight] is set to the current block height and
    [backoffUntil] increases by [min (minIdle * max 1 points) maxIdle].
    The call leaves the record so, the reputation passed through the rule
    for negative reputations ([settled]). *)
Theorem success_idle_accounting (cfg : BackoffConfig) (cursor_arg : JsCursor)
    (s : St) :
  config_ok cfg →
  capacity_drop s = false →
  let p := _peer (this s) in
  let w := world s in
  let h := blockHeight (consensusState w) in
  let p' := peer_after (success cfg false cursor_arg s) in
  let st' := status p' in
  100 * (timePerPoint cfg - 1) < maxIdleGracePeriod cfg ≤ 100 * timePerPoint cfg ∧
  (∀ s0 cs i,
     let p0 := _peer (this s0) in
     let p1 := peer_after (idle_penalty cfg cs i s0) in
     let elapsed := reading (world s0) 0 - idle_time i in
     let points := Math_floor_div elapsed (timePerPoint cfg) in
     points * timePerPoint cfg ≤ elapsed < (points + 1) * timePerPoint cfg ∧
     reputation p1 = reputation p0 - points ∧
     idle (status p1) =
       Some {| idle_time := idle_time i + points * timePerPoint cfg;
               idle_localBlockHeight := blockHeight cs |} ∧
     backoffUntil (status p1) =
       backoffUntil (status p0)
       + Z.min (minIdle cfg * Z.max 1 points) (maxIdle cfg)) ∧
  match idle (status p) with
  | None =>
    idle st' = Some {| idle_time := reading w 2; idle_localBlockHeight := h |} ∧
    reputation p' = reputation p ∧
    backoffUntil st' = reading w 0
  | Some i =>
    if decide (idle_localBlockHeight i = h) then
      idle st' = Some {| idle_time := reading w 2; idle_localBlockHeight := h |} ∧
      reputation p' = reputation p ∧
      backoffUntil st' = reading w 0
    else
      let points := idle_points cfg w i in
      reputation p' = settled w p (reputation p - points) ∧
      idle st' = Some {| idle_time := idle_time i + points * timePerPoint cfg;
                         idle_localBlockHeight := h |} ∧
      backoffUntil st' =
        reading w 0 + Z.min (minIdle cfg * Z.max 1 points) (maxIdle cfg)
  end.
Proof.
  intros Hcfg Hcap. cbv zeta.
  pose proof (timePerPoint_pos cfg Hcfg) as Htpp.
  split; [|split].
  { destruct Hcfg as [_ H].
    pose proof (Math_ceil_div_spec (maxIdleGracePeriod cfg) 100).
    unfold timePerPoint. lia. }
  { intros s0 cs i. split.
    - pose proof (Math_floor_div_spec
        (reading (world s0) 0 - idle_time i) (timePerPoint cfg) Htpp). lia.
    - clear. enter s0. paths. }
  clear Htpp.
  destruct (idle (status (_peer (this s)))) as [i|] eqn:Hi.
  - destruct (decide _) as [He|Hne].
    + revert Hcap Hi He. unfold capacity_drop. enter s. revert Hcap. paths.
    + revert Hcap Hi Hne. unfold capacity_drop. enter s. revert Hcap. paths.
  - revert Hcap Hi. unfold capacity_drop. enter s. revert Hcap. paths.
Qed.

Lemma success_idle_accounting_witness :
  let s := sample_state (sample_peer "alpha" 50 idle_status)
             (sample_world 4 ∅ ∅) in
  let p' := peer_after (success sample_config false CursorNull s) in
  config_ok sample_config ∧
  capacity_drop s = false ∧
  reputation p' = 49 ∧
  idle (status p') =
    Some {| idle_time := 1002000; idle_localBlockHeight := 4 |} ∧
  backoffUntil (status p') = 1000500.
Proof.
  assert (Hc : config_ok sample_config) by (unfold config_ok; simpl; lia).
  assert (Hd : capacity_drop
                 (sample_state (sample_peer "alpha" 50 idle_status)
                    (sample_world 4 ∅ ∅)) = false)
    by (vm_compute; reflexivity).
  split; [exact Hc|]. split; [exact Hd|].
  destruct (success_idle_accounting sample_config CursorNull _ Hc Hd)
    as (_ & _ & H).
  vm_compute in H. destruct H as (H1 & H2 & H3).
  split; [exact H1|]. split; [exact H2 | exact H3].
Defined.

(** ** The rule for negative reputations *)

(** C5. When the reputation update of a non-fatal failure, or the idle
    penalty of a success, assigns a negative reputation, the peer is deleted
    (and no record written) unless it is a witness at present; a witness is
    retained with a reputation of 0. *)
Theorem negative_reputation_rule (cfg : BackoffConfig) (s : St) (updated : Z) :
  config_ok cfg →
  updated < 0 →
  let p := _peer (this s) in
  let w := world s in
  (∀ error cursor_arg,
     fail_updates cfg s updated →
     let r := fail cfg error cursor_arg false s in
     if is_witness w p then retained s r ∧ reputation (peer_after r) = 0
     else dropped s r) ∧
  (∀ cursor_arg,
     idle_penalty_updates cfg s updated →
     let r := success cfg false cursor_arg s in
     if is_witness w p then retained s r ∧ reputation (peer_after r) = 0
     else dropped s r).
Proof.
  intros Hcfg Hneg. cbv zeta. split.
  - intros error cursor_arg Hup. revert Hup Hneg. unfold fail_updates.
    enter s. destruct Hup as [[Hcf ->]|[Hcf (f & -> & ->)]]; store_facts.
  - intros cursor_arg Hup. revert Hup Hneg.
    unfold idle_penalty_updates, capacity_drop.
    enter s. destruct Hup as (Hcap & i & -> & Hh & ->).
    revert Hcap Hneg. store_facts.
Qed.

Lemma negative_reputation_rule_witness :
  let s := sample_state (sample_peer "alpha" 0 sample_status)
             (sample_world 3 ∅ ∅) in
  let r := fail sample_config "NetworkError" CursorUndefined false s in
  config_ok sample_config ∧ fail_updates sample_config s (-1) ∧ dropped s r.
Proof.
  assert (Hc : config_ok sample_config) by (unfold config_ok; simpl; lia).
  assert (Hu : fail_updates sample_config
                 (sample_state (sample_peer "alpha" 0 sample_status)
                    (sample_world 3 ∅ ∅)) (-1))
    by (left; split; reflexivity).
  split; [exact Hc|]. split; [exact Hu|].
  destruct (negative_reputation_rule sample_config
              (sample_state (sample_peer "alpha" 0 sample_status)
                 (sample_world 3 ∅ ∅)) (-1) Hc ltac:(lia)) as [H _].
  exact (H "NetworkError" CursorUndefined Hu).
Defined.

(** ** Capacity *)

Lemma count_insert_le (k : Z) (p : Peer) (m : gmap string Peer) :
  count k (<[peer_id p := p]> m) ≤ count k m + 1.
Proof.
  unfold count. rewrite map_filter_insert. case_decide.
  - rewrite map_size_insert. destruct (_ !! _); simpl; lia.
  - rewrite map_filter_delete, map_size_delete. destruct (_ !! _); simpl; lia.
Qed.

Lemma count_delete_le (k : Z) (id : string) (m : gmap string Peer) :
  count k (delete id m) ≤ count k m.
Proof.
  unfold count. rewrite map_filter_delete, map_size_delete.
  destruct (_ !! _); simpl; lia.
Qed.

(** What a handler does to the collection: nothing, the deletion of the
    record of the peer, or the writing of the record the instance holds, the
    instance staying as live as it was. *)
Lemma handle_store (cfg : BackoffConfig) (c : Call) (s : St) :
  let r := handle cfg c s in
  let id := peer_id (_peer (this s)) in
  peer_id (peer_after r) = id ∧
  (peers (world_after r) = peers (world s) ∨
   peers (world_after r) = delete id (peers (world s)) ∨
   (peers (world_after r) = <[id := peer_after r]> (peers (world s)) ∧
    isDeleted (this_after r) = isDeleted (this s))).
Proof.
  destruct c as [error cursor_arg fatal|mergeEventsReceived cursor_arg];
    unfold handle; enter s;
    repeat (run; try discriminate; branch_step); run; auto.
Qed.

(** A call of [success] that returns with the instance not deleted has
    written the record. *)
Lemma success_live_retained (cfg : BackoffConfig) (mergeEventsReceived : bool)
    (cursor_arg : JsCursor) (s : St) :
  let r := success cfg mergeEventsReceived cursor_arg s in
  isDeleted (this_after r) = false → retained s r.
Proof.
  enter s. revert H. store_facts.
Qed.

(** C4, as amended. A successful gossip with a peer that is not a witness
    and whose reputation is exactly 0, while the collection counts at least
    100 peers of reputation at most 0, counts the peers, deletes the peer
    and returns: the record the instance holds and the clock are untouched.
    Consequently a call for such a peer that returns with the peer not
    deleted, having written its record, found fewer than 100 such peers and
    leaves at most 100. *)
Theorem success_drops_at_capacity (cfg : BackoffConfig)
    (mergeEventsReceived : bool) (cursor_arg : JsCursor) (s : St) :
  let p := _peer (this s) in
  let w := world s in
  let r := success cfg mergeEventsReceived cursor_arg s in
  is_witness w p = false →
  reputation p = 0 →
  (100 ≤ count 0 (peers w) →
     r = delete_ (set_world (store_step (PeersCount 0) (λ m, m) w) s) ∧
     isDeleted (this_after r) = true ∧
     peer_after r = p ∧
     ticks (world_after r) = ticks w) ∧
  (isDeleted (this_after r) = false →
     retained s r ∧
     count 0 (peers w) < 100 ∧
     count 0 (peers (world_after r)) ≤ 100).
Proof.
  cbv zeta. intros Hw Hr. split.
  - intros Hc. apply Z.leb_le in Hc. apply Z.eqb_eq in Hr.
    revert Hw Hr Hc. enter s. revert Hw Hr Hc. run. intros -> ->. run. intros ->. run.
    destruct s_d; run; repeat split; reflexivity.
  - intros Hd.
    split; [exact (success_live_retained cfg mergeEventsReceived cursor_arg s Hd)|].
    assert (Hlt : count 0 (peers (world s)) < 100).
    { destruct (Z.ltb_spec (count 0 (peers (world s))) 100) as [|Hge]; [assumption|].
      apply Z.leb_le in Hge. apply Z.eqb_eq in Hr.
      revert Hw Hr Hge Hd. enter s. revert Hw Hr Hge Hd. run.
      intros -> ->. run. intros ->. run.
      destruct s_d; run; discriminate. }
    split; [exact Hlt|].
    destruct (handle_store cfg (Success mergeEventsReceived cursor_arg) s)
      as [Hid [He|[He|[He _]]]]; simpl in Hid, He; rewrite He.
    + lia.
    + pose proof (count_delete_le 0 (peer_id (_peer (this s))) (peers (world s))). lia.
    + rewrite <- Hid.
      pose proof (count_insert_le 0
        (peer_after (success cfg mergeEventsReceived cursor_arg s))
        (peers (world s))). lia.
Qed.

Lemma success_drops_at_capacity_witness :
  let s := crowded_state (sample_peer "alpha" 0 sample_status) 3 in
  let r := success sample_config true CursorNull s in
  is_witness (world s) (_peer (this s)) = false ∧
  reputation (_peer (this s)) = 0 ∧
  100 ≤ count 0 (peers (world s)) ∧
  isDeleted (this_after r) = true ∧
  peer_after r = _peer (this s).
Proof.
  assert (H1 : is_witness
                 (world (crowded_state (sample_peer "alpha" 0 sample_status) 3))
                 (sample_peer "alpha" 0 sample_status) = false)
    by (vm_compute; reflexivity).
  assert (H3 : 100 ≤ count 0
                 (peers (world (crowded_state
                                  (sample_peer "alpha" 0 sample_status) 3))))
    by (vm_compute; discriminate).
  split; [exact H1|]. split; [reflexivity|]. split; [exact H3|].
  destruct (success_drops_at_capacity sample_config true CursorNull
              (crowded_state (sample_peer "alpha" 0 sample_status) 3)
              H1 eq_refl) as [H _].
  destruct (H H3) as (_ & Hd & Hp & _).
  split; [exact Hd | exact Hp].
Defined.

(** A hundred stored peers of reputation 0 and one of reputation 1, found
    idle 3000 ms before the third reading of the clock, at an earlier block
    height: the penalty is of one point. *)
Lemma success_at_capacity_commits :
  let s := crowded_state (sample_peer "alpha" 1 idle_status) 4 in
  let r := success sample_config false CursorNull s in
  count 0 (peers (world s)) ≤ 100 ∧
  retained s r ∧
  reputation (peer_after r) = 0 ∧
  count 0 (peers (world_after r)) = 101.
Proof. vm_compute. repeat split; try reflexivity; discriminate. Qed.

(** C4, as stated, fails: a peer of reputation 1 that the idle penalty takes
    to 0 is committed without a capacity check, so a success handler commit
    can leave 101 peers of reputation at most 0 where there were 100. *)
Lemma success_count_exceeds_100 :
  ¬ (∀ cfg mergeEventsReceived cursor_arg s,
       count 0 (peers (world s)) ≤ 100 →
       retained s (success cfg mergeEventsReceived cursor_arg s) →
       count 0 (peers (world_after
                  (success cfg mergeEventsReceived cursor_arg s))) ≤ 100).
Proof.
  intros H.
  destruct success_at_capacity_commits as (H1 & H2 & _ & H3).
  specialize (H sample_config false CursorNull _ H1 H2).
  cbv zeta in H3. rewrite H3 in H. lia.
Qed.

(** ** The bounds of the reputation *)

Lemma handle_clock (cfg : BackoffConfig) (c : Call) (s : St) :
  clock (world (handle cfg c s).2) = clock (world s).
Proof.
  destruct c as [error cursor_arg fatal|mergeEventsReceived cursor_arg];
    unfold handle; enter s;
    repeat (run; try discriminate; branch_step); run; reflexivity.
Qed.

Lemma handle_peer_inv (cfg : BackoffConfig) (c : Call) (s : St) :
  config_ok cfg →
  monotone_clock (world s) →
  peer_inv (world s) (_peer (this s)) →
  let r := handle cfg c s in
  isDeleted (this_after r) = false →
  peer_inv (world_after r) (peer_after r).
Proof.
  intros Hcfg Hmono Hinv. cbv zeta.
  pose proof (timePerPoint_pos cfg Hcfg) as Htpp.
  unfold peer_inv, reputation_bounded, monotone_clock in *.
  revert Hmono Hinv.
  destruct c as [error cursor_arg fatal|mergeEventsReceived cursor_arg];
    unfold handle; enter s;
    destruct Hinv as (Hrep & Hff & Hidl);
    pose proof (Hmono s_tk) as Hm0; pose proof (Hmono (S s_tk)) as Hm1;
    pose proof (Hmono (S (S s_tk))) as Hm2; clear Hmono;
    (destruct s_ff as [[ffr fft]|];
       [specialize (Hff _ eq_refl); simpl in Hff|clear Hff]);
    (destruct s_idl as [[it ilbh]|];
       [specialize (Hidl _ eq_refl); simpl in Hidl;
        pose proof (Math_floor_div_spec (s_clk (S (S s_tk)) - it)
                      (timePerPoint cfg) Htpp) as Hfl;
        pose proof (Z.div_pos (s_clk (S (S s_tk)) - it) (timePerPoint cfg)) as Hq
       |clear Hidl]);
    unfold timePerPoint, Math_ceil_div, Math_floor_div in *;
    revert H; paths.
Qed.

Lemma handle_state_inv (cfg : BackoffConfig) (c : Call) (s : St) :
  config_ok cfg →
  monotone_clock (world s) →
  isDeleted (this s) = false →
  state_inv s →
  state_inv (handle cfg c s).2.
Proof.
  intros Hcfg Hmono Hlive [Hstore Hpeer].
  pose proof (handle_peer_inv cfg c s Hcfg Hmono (Hpeer Hlive)) as Hp.
  destruct (handle_store cfg c s) as [Hid Hst].
  cbv zeta in *. unfold world_after, this_after, peer_after in *.
  split; [|exact Hp].
  intros id q. destruct Hst as [->|[->|[-> Hd]]].
  - apply Hstore.
  - intros [_ Hq]%lookup_delete_Some. exact (Hstore _ _ Hq).
  - intros [[_ <-]|[_ Hq]]%lookup_insert_Some.
    + apply Hp. congruence.
    + exact (Hstore _ _ Hq).
Qed.

Lemma stored_state_inv (p : Peer) (clk : nat → Z) (h : Z) :
  peer_inv (world (stored_state p clk h)) p → state_inv (stored_state p clk h).
Proof.
  intros Hp. split.
  - intros id q H. simpl in H. apply lookup_singleton_Some in H as [_ <-].
    apply Hp.
  - intros _. exact Hp.
Qed.

(** C3, as amended. With positive grace periods and a clock whose readings
    never decrease: if every stored record and the record of the live
    instance are within 0 and 100 (with the snapshot of a first failure, and
    an idle time that is not ahead of the clock), then they still are after
    any number of gossip sessions reported to [fail] or [success], whatever
    the consensus state of the worker at each of them; an instance that is
    deleted is not used again. *)
Theorem reputation_bounded_always (cfg : BackoffConfig)
    (l : list (ConsensusState * Call)) (s : St) :
  config_ok cfg →
  monotone_clock (world s) →
  state_inv s →
  let s' := sessions cfg l s in
  state_inv s' ∧
  (∀ id q, peers (world s') !! id = Some q → 0 ≤ reputation q ≤ 100) ∧
  (isDeleted (this s') = false → 0 ≤ reputation (_peer (this s')) ≤ 100).
Proof.
  intros Hcfg Hmono Hinv. cbv zeta.
  assert (H : state_inv (sessions cfg l s)).
  { revert s Hmono Hinv. induction l as [|[cs c] l IH]; intros s Hmono Hinv.
    - exact Hinv.
    - simpl. destruct (isDeleted (this s)) eqn:Hd; [exact Hinv|].
      apply IH.
      + unfold monotone_clock. rewrite handle_clock. exact Hmono.
      + apply handle_state_inv;
          [exact Hcfg | exact Hmono | exact Hd | exact Hinv]. }
  split; [exact H|]. destruct H as [Hs Hp]. split.
  - exact Hs.
  - intros Hd. apply (Hp Hd).
Qed.

Lemma sample_clock_monotone (h : Z) (ws : gset string) (m : gmap string Peer) :
  monotone_clock (sample_world h ws m).
Proof. intros n. unfold sample_world, sample_clock. simpl. lia. Qed.

(** A stored peer of reputation 50, found idle at block height 3, 3000 ms
    before the third reading of the clock: a success without merge events at
    block height 4 costs it a point, the failure that follows another, and
    the instance is live with the record it has written, of reputation 48. *)
Lemma reputation_bounded_always_witness :
  let s := stored_state (sample_peer "alpha" 50 idle_status) sample_clock 4 in
  let cs := {| blockHeight := 4; witnesses := ∅ |} in
  let s' := sessions sample_config
              [(cs, Success false CursorNull);
               (cs, Fail "NetworkError" CursorUndefined false)] s in
  config_ok sample_config ∧ monotone_clock (world s) ∧ state_inv s ∧
  isDeleted (this s') = false ∧
  reputation <$> peers (world s') !! "alpha" = Some 48 ∧
  (∀ id q, peers (world s') !! id = Some q → 0 ≤ reputation q ≤ 100) ∧
  0 ≤ reputation (_peer (this s')) ≤ 100.
Proof.
  assert (Hc : config_ok sample_config) by (unfold config_ok; simpl; lia).
  assert (Hm : monotone_clock
                 (world (stored_state (sample_peer "alpha" 50 idle_status)
                           sample_clock 4))).
  { intros n. simpl. unfold sample_clock. lia. }
  assert (Hi : state_inv (stored_state (sample_peer "alpha" 50 idle_status)
                            sample_clock 4)).
  { apply stored_state_inv. split; [vm_compute; split; discriminate|].
    split; [intros ff H; discriminate|].
    intros i H. injection H as <-. vm_compute. discriminate. }
  assert (Hd : isDeleted (this (sessions sample_config
      [({| blockHeight := 4; witnesses := ∅ |}, Success false CursorNull);
       ({| blockHeight := 4; witnesses := ∅ |},
        Fail "NetworkError" CursorUndefined false)]
      (stored_state (sample_peer "alpha" 50 idle_status) sample_clock 4)))
    = false) by (vm_compute; reflexivity).
  destruct (reputation_bounded_always sample_config
    [({| blockHeight := 4; witnesses := ∅ |}, Success false CursorNull);
     ({| blockHeight := 4; witnesses := ∅ |},
      Fail "NetworkError" CursorUndefined false)]
    (stored_state (sample_peer "alpha" 50 idle_status) sample_clock 4)
    Hc Hm Hi) as (_ & Hs & Hl).
  split; [exact Hc|]. split; [exact Hm|]. split; [exact Hi|].
  split; [exact Hd|]. split; [vm_compute; reflexivity|].
  split; [exact Hs | exact (Hl Hd)].
Defined.

(** A stored peer of reputation 100 and two successes without merge events,
    at block heights 3 and 4. The first finds no idle record and makes one
    at the third reading of the clock, 1002000. The clock is then set back:
    at the sixth reading, 996000, the second finds the peer idle for -6000
    ms, that is -2 points of 3000 ms, and hands its record to the
    collection with a reputation of 102. *)
Lemma clock_steps_back_commits_102 :
  let s := stored_state (sample_peer "alpha" 100 sample_status)
             stepping_back_clock 3 in
  let s' := sessions sample_config
              [({| blockHeight := 3; witnesses := ∅ |}, Success false CursorNull);
               ({| blockHeight := 4; witnesses := ∅ |}, Success false CursorNull)]
              s in
  isDeleted (this s') = false ∧
  reputation (_peer (this s')) = 102 ∧
  head (calls (world s')) = Some (PeersUpdate (_peer (this s'))) ∧
  peers (world s') !! "alpha" = Some (_peer (this s')).
Proof. vm_compute. repeat split; reflexivity. Qed.

(** C3, as stated, fails: the handlers take the differences of the readings
    of the clock as they come, so that after a clock set back the idle
    penalty of [success] is negative and a stored reputation exceeds 100,
    from a state in which every reputation was within bounds. *)
Lemma reputation_unbounded_without_monotone_clock :
  ¬ (∀ cfg l s,
       config_ok cfg →
       state_inv s →
       ∀ id q, peers (world (sessions cfg l s)) !! id = Some q →
               0 ≤ reputation q ≤ 100).
Proof.
  intros H.
  destruct clock_steps_back_commits_102 as (_ & E & _ & Hq).
  cbv zeta in E, Hq.
  assert (Hc : config_ok sample_config) by (unfold config_ok; simpl; lia).
  assert (Hi : state_inv (stored_state (sample_peer "alpha" 100 sample_status)
                            stepping_back_clock 3)).
  { apply stored_state_inv. split; [vm_compute; split; discriminate|].
    split; intros ? Hx; discriminate Hx. }
  pose proof (H _ _ _ Hc Hi _ _ Hq) as Hb.
  rewrite E in Hb. lia.
Qed.

(** The other two assumptions are needed as well. An idle record that is
    ahead of the clock, here by 8000 ms at the third reading, makes the
    penalty negative under a clock that never goes back: the record is
    written with a reputation of 103. *)
Lemma idle_ahead_of_clock_commits_103 :
  let s := stored_state (sample_peer "alpha" 100 idle_ahead_status)
             sample_clock 4 in
  let r := success sample_config false CursorNull s in
  monotone_clock (world s) ∧
  retained s r ∧
  reputation (peer_after r) = 103.
Proof.
  split; [intros n; simpl; unfold sample_clock; lia|].
  vm_compute. repeat split; reflexivity.
Qed.

(** An instance used again after it was deleted: [fail] brings a peer of
    reputation 0 that is not a witness to -1 and deletes it, leaving -1 in
    the record the instance holds; [success] then has no capacity check to
    make, nor a penalty to apply, and hands that record to the collection. *)
Lemma reuse_after_deletion_writes_negative :
  let s := stored_state (sample_peer "alpha" 0 sample_status) sample_clock 3 in
  let r1 := fail sample_config "NetworkError" CursorUndefined false s in
  let r2 := success sample_config false CursorNull r1.2 in
  dropped s r1 ∧
  isDeleted (this_after r2) = true ∧
  head (calls (world_after r2)) = Some (PeersUpdate (peer_after r2)) ∧
  reputation (peer_after r2) = -1.
Proof.
  vm_compute. repeat split; try reflexivity.
  intros q H. apply elem_of_cons in H as [H|H]; [discriminate|].
  apply elem_of_nil in H. destruct H.
Qed.

(** * Further properties of the handlers *)

(** ** Errors and outcomes *)

(** X1. A non-fatal [fail] either returns normally or throws a [TypeError],
    and it throws exactly when the call gives no error to take the text of,
    or the failure is not the first of its streak and the record has no
    [firstFailure] to read the time of. By then the failure is counted and
    the time of the pull set on the instance, but nothing has reached the
    peers collection: no call, no snapshot, no change of reputation or
    sequence. Without an error the clock was read once, and the last result
    and the idle record are as they were; with one, the clock was read
    twice, the error recorded and the idle record dropped. *)
Theorem fail_throws_exactly_when (cfg : BackoffConfig) (error : option string)
    (cursor_arg : JsCursor) (s : St) :
  let p := _peer (this s) in
  let w := world s in
  let cf := consecutiveFailures (status p) in
  let r := fail_call cfg error cursor_arg false s in
  let p' := peer_after r in
  (r.1 = Normal tt ∨ r.1 = Throw "TypeError") ∧
  (r.1 = Throw "TypeError" ↔
     error = None ∨ (cf + 1 ≠ 1 ∧ firstFailure (status p) = None)) ∧
  (r.1 = Throw "TypeError" →
     peers (world_after r) = peers w ∧
     calls (world_after r) = calls w ∧
     isDeleted (this_after r) = isDeleted (this s) ∧
     consecutiveFailures (status p') = cf + 1 ∧
     lastPullAt (status p') = reading w 0 ∧
     firstFailure (status p') = firstFailure (status p) ∧
     reputation p' = reputation p ∧
     sequence p' = sequence p ∧
     match error with
     | Some e =>
       ticks (world_after r) = (2 + ticks w)%nat ∧
       lastPullResult (status p') = e ∧
       idle (status p') = None
     | None =>
       ticks (world_after r) = (1 + ticks w)%nat ∧
       lastPullResult (status p') = lastPullResult (status p) ∧
       idle (status p') = idle (status p)
     end).
Proof.
  destruct error as [e|]; unfold fail_call, fail_no_error.
  - enter s. split; [|split; [split|]].
    + paths; auto.
    + intros Ht. right. revert Ht. paths.
    + intros [Hn|[Hcf ->]]; [discriminate|]. paths.
    + paths.
  - enter s. split; [|split; [split|]].
    + right. reflexivity.
    + intros _. left. reflexivity.
    + intros _. reflexivity.
    + intros _. repeat split.
Qed.

Lemma fail_throws_exactly_when_witness :
  let s := sample_state (sample_peer "alpha" 50 sample_status)
             (sample_world 3 ∅ ∅) in
  let s2 := sample_state
              (sample_peer "alpha" 50 (set_consecutiveFailures 1 sample_status))
              (sample_world 3 ∅ ∅) in
  let r := fail_call sample_config None CursorUndefined false s in
  let r2 := fail_call sample_config (Some "NetworkError") CursorUndefined
              false s2 in
  (r.1 = Throw "TypeError" ∧
   calls (world_after r) = [] ∧
   ticks (world_after r) = 1%nat ∧
   consecutiveFailures (status (peer_after r)) = 1 ∧
   firstFailure (status (peer_after r)) = None ∧
   lastPullResult (status (peer_after r)) = "success") ∧
  (r2.1 = Throw "TypeError" ∧
   calls (world_after r2) = [] ∧
   ticks (world_after r2) = 2%nat ∧
   consecutiveFailures (status (peer_after r2)) = 2 ∧
   lastPullResult (status (peer_after r2)) = "NetworkError").
Proof.
  cbv zeta. split.
  - destruct (fail_throws_exactly_when sample_config None CursorUndefined
                (sample_state (sample_peer "alpha" 50 sample_status)
                   (sample_world 3 ∅ ∅))) as (_ & [_ H] & H').
    assert (Ht := H (or_introl eq_refl)).
    destruct (H' Ht) as (_ & Hc & _ & Hcf & _ & Hff & _ & _ & Htk & Hr & _).
    split; [exact Ht|]. split; [exact Hc|]. split; [exact Htk|].
    split; [exact Hcf|]. split; [exact Hff | exact Hr].
  - destruct (fail_throws_exactly_when sample_config (Some "NetworkError")
                CursorUndefined
                (sample_state
                   (sample_peer "alpha" 50
                      (set_consecutiveFailures 1 sample_status))
                   (sample_world 3 ∅ ∅))) as (_ & [_ H] & H').
    assert (Hs : consecutiveFailures (status (_peer (this (sample_state
                   (sample_peer "alpha" 50
                      (set_consecutiveFailures 1 sample_status))
                   (sample_world 3 ∅ ∅))))) + 1 ≠ 1 ∧
                 firstFailure (status (_peer (this (sample_state
                   (sample_peer "alpha" 50
                      (set_consecutiveFailures 1 sample_status))
                   (sample_world 3 ∅ ∅))))) = None) by computed.
    assert (Ht := H (or_intror Hs)).
    destruct (H' Ht) as (_ & Hc & _ & Hcf & _ & _ & _ & _ & Htk & Hr & _).
    split; [exact Ht|]. split; [exact Hc|]. split; [exact Htk|].
    split; [exact Hcf | exact Hr].
Defined.

(** X2. A call of [fail] or [success] on a live instance that returns
    normally has done one of two things and never neither: it has deleted
    the peer, writing nothing and leaving [sequence] alone, or it has written
    the record it holds, with [sequence] one higher. *)
Theorem handle_writes_or_deletes (cfg : BackoffConfig) (c : Call) (s : St) :
  let r := handle cfg c s in
  isDeleted (this s) = false →
  r.1 = Normal tt →
  if isDeleted (this_after r)
  then dropped s r ∧ sequence (peer_after r) = sequence (_peer (this s))
  else retained s r ∧ sequence (peer_after r) = sequence (_peer (this s)) + 1.
Proof.
  destruct c as [error cursor_arg fatal|mergeEventsReceived cursor_arg];
    unfold handle; enter s; subst s_d; revert H0; store_facts.
Qed.

Lemma handle_writes_or_deletes_witness :
  let s := sample_state (sample_peer "alpha" 0 sample_status)
             (sample_world 3 ∅ ∅) in
  let r := handle sample_config (Fail "NetworkError" CursorUndefined false) s in
  isDeleted (this s) = false ∧ r.1 = Normal tt ∧
  dropped s r ∧ sequence (peer_after r) = 0.
Proof.
  cbv zeta. split; [computed|]. split; [computed|].
  exact (handle_writes_or_deletes sample_config
           (Fail "NetworkError" CursorUndefined false)
           (sample_state (sample_peer "alpha" 0 sample_status)
              (sample_world 3 ∅ ∅)) eq_refl eq_refl).
Defined.

(** X3. What [fail] and [success] never touch: the id of the peer, its
    [recommended] flag (so [isRecommended]), [status.lastPushAt], the clock
    and the consensus state of the worker; and they never bring a deleted
    instance back. *)
Theorem handle_frame (cfg : BackoffConfig) (c : Call) (s : St) :
  let r := handle cfg c s in
  let p := _peer (this s) in
  let p' := peer_after r in
  peer_id p' = peer_id p ∧
  isRecommended (this_after r) = isRecommended (this s) ∧
  lastPushAt (status p') = lastPushAt (status p) ∧
  clock (world_after r) = clock (world s) ∧
  consensusState (world_after r) = consensusState (world s) ∧
  (isDeleted (this s) = true → isDeleted (this_after r) = true).
Proof.
  destruct c as [error cursor_arg fatal|mergeEventsReceived cursor_arg];
    unfold handle, isRecommended; enter s; paths.
Qed.

(** X4. Short of a fatal failure, a peer that is a witness at present is
    never deleted by [fail] or [success], whatever its reputation and however
    full the collection: the flag stays as it was, and a call that returns
    normally has written the record. *)
Theorem witness_never_dropped (cfg : BackoffConfig) (c : Call) (s : St) :
  let r := handle cfg c s in
  is_fatal c = false →
  is_witness (world s) (_peer (this s)) = true →
  isDeleted (this_after r) = isDeleted (this s) ∧
  (r.1 = Normal tt → retained s r).
Proof.
  destruct c as [error cursor_arg fatal|mergeEventsReceived cursor_arg];
    unfold handle, is_fatal; enter s; [subst fatal|]; revert H0; store_facts.
Qed.

Lemma witness_never_dropped_witness :
  let s := sample_state (sample_peer "alpha" 0 sample_status)
             (sample_world 3 {["alpha"]} ∅) in
  let r := handle sample_config (Fail "NetworkError" CursorUndefined false) s in
  is_witness (world s) (_peer (this s)) = true ∧
  isDeleted (this_after r) = false ∧
  reputation (peer_after r) = 0.
Proof.
  cbv zeta. split; [computed|].
  pose proof (witness_never_dropped sample_config
                (Fail "NetworkError" CursorUndefined false)
                (sample_state (sample_peer "alpha" 0 sample_status)
                   (sample_world 3 {["alpha"]} ∅)) eq_refl) as H.
  cbv zeta in H. feed H. destruct H as [H _].
  split; [exact H | computed].
Defined.

(** ** Summaries of the calls that leave the instance live *)

Lemma fail_live (cfg : BackoffConfig) (error : string) (cursor_arg : JsCursor)
    (s : St) :
  let r := fail cfg error cursor_arg false s in
  let p := _peer (this s) in
  let w := world s in
  let cf := consecutiveFailures (status p) in
  let p' := peer_after r in
  live_after r →
  consecutiveFailures (status p') = cf + 1 ∧
  idle (status p') = None ∧
  lastPullAt (status p') = reading w 0 ∧
  0 ≤ reputation p' ∧
  clock (world_after r) = clock w ∧
  ticks (world_after r) = ((if (cf + 1 =? 1)%Z then 2 else 3) + ticks w)%nat ∧
  (cf + 1 = 1 →
     firstFailure (status p') =
       Some {| firstFailure_reputation := reputation p;
               firstFailure_time := reading w 0 |} ∧
     reputation p' = settled w p (reputation p - 1)) ∧
  (cf + 1 ≠ 1 →
     is_Some (firstFailure (status p)) ∧
     ∀ f, firstFailure (status p) = Some f →
          firstFailure (status p') = Some f ∧
          reputation p' =
            settled w p
              (Z.min (firstFailure_reputation f - 1)
                 (firstFailure_reputation f
                  - (reading w 1 - firstFailure_time f)
                    / maxFailureGracePeriod cfg * 100))).
Proof.
  unfold live_after. enter s. destruct H as [H1 H2]. revert H1 H2.
  paths; try (eexists; reflexivity).
Qed.

Lemma fail_first (cfg : BackoffConfig) (error : string) (cursor_arg : JsCursor)
    (s : St) :
  let r := fail cfg error cursor_arg false s in
  let p := _peer (this s) in
  let w := world s in
  let p' := peer_after r in
  consecutiveFailures (status p) = 0 →
  r.1 = Normal tt ∧
  consecutiveFailures (status p') = 1 ∧
  firstFailure (status p') =
    Some {| firstFailure_reputation := reputation p;
            firstFailure_time := reading w 0 |} ∧
  reputation p' = settled w p (reputation p - 1).
Proof.
  enter s. subst s_cf. paths.
Qed.

Lemma success_live (cfg : BackoffConfig) (mergeEventsReceived : bool)
    (cursor_arg : JsCursor) (s : St) :
  let r := success cfg mergeEventsReceived cursor_arg s in
  let w := world s in
  let p' := peer_after r in
  isDeleted (this_after r) = false →
  r.1 = Normal tt ∧
  capacity_drop s = false ∧
  consecutiveFailures (status p') = 0 ∧
  firstFailure (status p') = None ∧
  lastPullAt (status p') = reading w 1 ∧
  clock (world_after r) = clock w ∧
  ticks (world_after r) = ((if mergeEventsReceived then 2 else 3) + ticks w)%nat.
Proof.
  enter s. revert H. paths.
Qed.

Lemma success_without_idle (cfg : BackoffConfig) (cursor_arg : JsCursor) (s : St) :
  let r := success cfg false cursor_arg s in
  let p := _peer (this s) in
  let w := world s in
  let p' := peer_after r in
  capacity_drop s = false →
  idle (status p) = None →
  r.1 = Normal tt ∧
  isDeleted (this_after r) = isDeleted (this s) ∧
  reputation p' = reputation p ∧
  idle (status p') =
    Some {| idle_time := reading w 2;
            idle_localBlockHeight := blockHeight (consensusState w) |} ∧
  backoffUntil (status p') = reading w 0.
Proof.
  unfold capacity_drop. enter s. subst s_idl. revert H. paths.
Qed.

Lemma success_penalised (cfg : BackoffConfig) (cursor_arg : JsCursor) (s : St)
    (i : Idle) :
  let r := success cfg false cursor_arg s in
  let p := _peer (this s) in
  let w := world s in
  let p' := peer_after r in
  let points := idle_points cfg w i in
  capacity_drop s = false →
  idle (status p) = Some i →
  idle_localBlockHeight i ≠ blockHeight (consensusState w) →
  live_after r →
  reputation p' = settled w p (reputation p - points) ∧
  0 ≤ reputation p' ∧
  idle (status p') =
    Some {| idle_time := idle_time i + points * timePerPoint cfg;
            idle_localBlockHeight := blockHeight (consensusState w) |} ∧
  backoffUntil (status p') = reading w 0 + idle_backoff cfg points ∧
  peer_id p' = peer_id p ∧
  clock (world_after r) = clock w ∧
  ticks (world_after r) = (3 + ticks w)%nat.
Proof.
  unfold capacity_drop, live_after. enter s. subst s_idl.
  destruct H2 as [H2 H3]. revert H H1 H2 H3. paths.
Qed.

Lemma fail_call_no_error (cfg : BackoffConfig) (cursor_arg : JsCursor)
    (s : St) :
  let r := fail_call cfg None cursor_arg false s in
  let p := _peer (this s) in
  let p' := peer_after r in
  r.1 = Throw "TypeError" ∧
  consecutiveFailures (status p') = consecutiveFailures (status p) + 1 ∧
  firstFailure (status p') = firstFailure (status p) ∧
  reputation p' = reputation p ∧
  calls (world_after r) = calls (world s).
Proof.
  unfold fail_call, fail_no_error. enter s. repeat split.
Qed.

(** ** One call after another *)

Lemma monotone_clock_le (w : World) (n m : nat) :
  monotone_clock w → (n ≤ m)%nat → clock w n ≤ clock w m.
Proof.
  intros Hm Hle. induction Hle as [|m Hle IH]; [lia|].
  specialize (Hm m). lia.
Qed.

(** X5. A failure restarts the idle accounting: since [fail] drops the idle
    record, the [success] without merge events that follows a failure (under
    any consensus state, once past the capacity check) applies no penalty. It
    keeps the reputation the failure left and starts a new idle record at
    its own time and block height. *)
Theorem failure_resets_idle_accounting (cfg : BackoffConfig) (error : string)
    (cursor1 cursor2 : JsCursor) (cs : ConsensusState) (s : St) :
  let r1 := fail cfg error cursor1 false s in
  let s1 := set_consensusState cs r1.2 in
  let r2 := success cfg false cursor2 s1 in
  live_after r1 →
  capacity_drop s1 = false →
  live_after r2 ∧
  reputation (peer_after r2) = reputation (peer_after r1) ∧
  idle (status (peer_after r2)) =
    Some {| idle_time := reading (world s1) 2;
            idle_localBlockHeight := blockHeight cs |}.
Proof.
  cbv zeta. intros Hlive Hcap.
  destruct (fail_live cfg error cursor1 s Hlive) as (_ & Hidle & _).
  destruct (success_without_idle cfg cursor2
              (set_consensusState cs (fail cfg error cursor1 false s).2)
              Hcap Hidle) as (Hn & Hd & Hr & Hi & _).
  split; [split; [exact Hn|]|split; [exact Hr|exact Hi]].
  rewrite Hd. exact (proj2 Hlive).
Qed.

Lemma failure_resets_idle_accounting_witness :
  let s := sample_state (sample_peer "alpha" 50 idle_status)
             (sample_world 3 ∅ ∅) in
  let cs := {| blockHeight := 9; witnesses := ∅ |} in
  let r1 := fail sample_config "NetworkError" CursorUndefined false s in
  let r2 := success sample_config false CursorNull (set_consensusState cs r1.2) in
  live_after r1 ∧
  reputation (peer_after r1) = 49 ∧ reputation (peer_after r2) = 49.
Proof.
  cbv zeta.
  pose proof (failure_resets_idle_accounting sample_config "NetworkError"
                CursorUndefined CursorNull
                {| blockHeight := 9; witnesses := ∅ |}
                (sample_state (sample_peer "alpha" 50 idle_status)
                   (sample_world 3 ∅ ∅))) as H.
  cbv zeta in H.
  assert (H1 : live_after
                 (fail sample_config "NetworkError" CursorUndefined false
                    (sample_state (sample_peer "alpha" 50 idle_status)
                       (sample_world 3 ∅ ∅)))) by computed.
  specialize (H H1). feed H. destruct H as (_ & H & _).
  split; [exact H1|]. split; [computed|]. rewrite H. computed.
Defined.

(** X6. A success ends the streak of failures: the non-fatal [fail] that
    follows a [success] which left the peer live counts as the first
    failure. Given an error, it returns normally and snapshots the
    reputation the success left, at its own time. Given none, it throws a
    [TypeError] before any snapshot is taken: [firstFailure] stays absent,
    the reputation is the one the success left and nothing is written. *)
Theorem success_then_first_failure (cfg : BackoffConfig)
    (mergeEventsReceived : bool) (cursor1 cursor2 : JsCursor)
    (error : option string) (cs : ConsensusState) (s : St) :
  let r1 := success cfg mergeEventsReceived cursor1 s in
  let s1 := set_consensusState cs r1.2 in
  let r2 := fail_call cfg error cursor2 false s1 in
  isDeleted (this_after r1) = false →
  consecutiveFailures (status (peer_after r2)) = 1 ∧
  match error with
  | Some _ =>
    r2.1 = Normal tt ∧
    firstFailure (status (peer_after r2)) =
      Some {| firstFailure_reputation := reputation (peer_after r1);
              firstFailure_time := reading (world s1) 0 |} ∧
    reputation (peer_after r2) =
      settled (world s1) (peer_after r1) (reputation (peer_after r1) - 1)
  | None =>
    r2.1 = Throw "TypeError" ∧
    firstFailure (status (peer_after r2)) = None ∧
    reputation (peer_after r2) = reputation (peer_after r1) ∧
    calls (world_after r2) = calls (world_after r1)
  end.
Proof.
  cbv zeta. intros Hlive.
  destruct (success_live cfg mergeEventsReceived cursor1 s Hlive)
    as (_ & _ & Hcf & Hff & _).
  destruct error as [e|].
  - destruct (fail_first cfg e cursor2
                (set_consensusState cs
                   (success cfg mergeEventsReceived cursor1 s).2)
                Hcf) as (Hn & Hc & Hf & Hr).
    split; [exact Hc|]. split; [exact Hn|]. split; [exact Hf | exact Hr].
  - destruct (fail_call_no_error cfg cursor2
                (set_consensusState cs
                   (success cfg mergeEventsReceived cursor1 s).2))
      as (Hn & Hc & Hf & Hr & Hl).
    split; [|split; [exact Hn|split; [|split; [exact Hr | exact Hl]]]].
    + rewrite Hc.
      change (consecutiveFailures
                (status (peer_after (success cfg mergeEventsReceived cursor1 s)))
              + 1 = 1).
      rewrite Hcf. reflexivity.
    + rewrite Hf. exact Hff.
Qed.

Lemma success_then_first_failure_witness :
  let s := sample_state (sample_peer "alpha" 50 failing_status)
             (sample_world 3 ∅ ∅) in
  let cs := {| blockHeight := 3; witnesses := ∅ |} in
  let r1 := success sample_config true CursorNull s in
  let r2 := fail_call sample_config (Some "NetworkError") CursorUndefined false
              (set_consensusState cs r1.2) in
  let r3 := fail_call sample_config None CursorUndefined false
              (set_consensusState cs r1.2) in
  isDeleted (this_after r1) = false ∧
  (consecutiveFailures (status (peer_after r2)) = 1 ∧
   r2.1 = Normal tt ∧
   firstFailure (status (peer_after r2)) =
     Some {| firstFailure_reputation := 51; firstFailure_time := 1002000 |}) ∧
  (consecutiveFailures (status (peer_after r3)) = 1 ∧
   r3.1 = Throw "TypeError" ∧
   firstFailure (status (peer_after r3)) = None ∧
   reputation (peer_after r3) = 51).
Proof.
  cbv zeta.
  assert (H1 : isDeleted (this_after
                 (success sample_config true CursorNull
                    (sample_state (sample_peer "alpha" 50 failing_status)
                       (sample_world 3 ∅ ∅)))) = false) by computed.
  split; [exact H1|]. split.
  - pose proof (success_then_first_failure sample_config true CursorNull
                  CursorUndefined (Some "NetworkError")
                  {| blockHeight := 3; witnesses := ∅ |}
                  (sample_state (sample_peer "alpha" 50 failing_status)
                     (sample_world 3 ∅ ∅))) as H.
    cbv zeta in H. destruct (H H1) as (Hcf & Hn & Hff & _).
    split; [exact Hcf|]. split; [exact Hn|]. rewrite Hff. computed.
  - pose proof (success_then_first_failure sample_config true CursorNull
                  CursorUndefined None
                  {| blockHeight := 3; witnesses := ∅ |}
                  (sample_state (sample_peer "alpha" 50 failing_status)
                     (sample_world 3 ∅ ∅))) as H.
    cbv zeta in H. destruct (H H1) as (Hcf & Hn & Hff & Hr & _).
    split; [exact Hcf|]. split; [exact Hn|]. split; [exact Hff|].
    rewrite Hr. computed.
Defined.

(** X7. With a clock that never goes back, a second failure in a row never
    leaves a higher reputation than the one before it left, whatever the
    consensus state at the second. *)
Theorem consecutive_failures_never_raise (cfg : BackoffConfig)
    (error1 error2 : string) (cursor1 cursor2 : JsCursor)
    (cs : ConsensusState) (s : St) :
  let r1 := fail cfg error1 cursor1 false s in
  let s1 := set_consensusState cs r1.2 in
  let r2 := fail cfg error2 cursor2 false s1 in
  config_ok cfg →
  monotone_clock (world s) →
  0 ≤ consecutiveFailures (status (_peer (this s))) →
  live_after r1 →
  live_after r2 →
  reputation (peer_after r2) ≤ reputation (peer_after r1).
Proof.
  cbv zeta. intros [Hg _] Hmono Hcf H1 H2.
  destruct (fail_live cfg error1 cursor1 s H1)
    as (Hcf1 & _ & _ & Hr1 & Hclk & Htk & Hfirst & Hnext).
  destruct (fail_live cfg error2 cursor2 _ H2)
    as (_ & _ & _ & Hr2 & _ & _ & _ & Hnext2).
  destruct Hnext2 as [_ Hnext2].
  { change (consecutiveFailures
              (status (peer_after (fail cfg error1 cursor1 false s))) + 1 ≠ 1).
    lia. }
  unfold settled, reading in *.
  change (world (set_consensusState cs (fail cfg error1 cursor1 false s).2))
    with {| clock := clock (world_after (fail cfg error1 cursor1 false s));
            ticks := ticks (world_after (fail cfg error1 cursor1 false s));
            consensusState := cs;
            peers := peers (world_after (fail cfg error1 cursor1 false s));
            calls := calls (world_after (fail cfg error1 cursor1 false s)) |}
    in *.
  change (_peer (this (set_consensusState cs (fail cfg error1 cursor1 false s).2)))
    with (peer_after (fail cfg error1 cursor1 false s)) in *.
  cbn [clock ticks consensusState] in *.
  rewrite Hclk, Htk in Hnext2.
  destruct (Z.eq_dec (consecutiveFailures (status (_peer (this s))) + 1) 1)
    as [He|Hne].
  - destruct (Hfirst He) as [Hff Hrep1].
    destruct (Hnext2 _ Hff) as [_ Hrep2]. cbn [firstFailure_reputation firstFailure_time] in Hrep2.
    apply Z.eqb_eq in He. rewrite He in Hrep2.
    pose proof (monotone_clock_le (world s) (0 + ticks (world s))
                  (1 + (2 + ticks (world s))) Hmono ltac:(lia)) as Hle.
    pose proof (Z.div_pos
      (clock (world s) (1 + (2 + ticks (world s)))
       - clock (world s) (0 + ticks (world s)))
      (maxFailureGracePeriod cfg) ltac:(lia) Hg) as Hdiv.
    rewrite Hrep1, Hrep2 in *.
    settle_cases.
  - destruct (Hnext Hne) as [[f Hf] Hall].
    destruct (Hall f Hf) as [Hff Hrep1].
    destruct (Hnext2 _ Hff) as [_ Hrep2].
    apply Z.eqb_neq in Hne. rewrite Hne in Hrep2.
    pose proof (monotone_clock_le (world s) (1 + ticks (world s))
                  (1 + (3 + ticks (world s))) Hmono ltac:(lia)) as Hle.
    pose proof (Z.div_le_mono
      (clock (world s) (1 + ticks (world s)) - firstFailure_time f)
      (clock (world s) (1 + (3 + ticks (world s))) - firstFailure_time f)
      (maxFailureGracePeriod cfg) Hg ltac:(lia)) as Hdiv.
    rewrite Hrep1, Hrep2 in *.
    settle_cases.
Qed.

Lemma consecutive_failures_never_raise_witness :
  let s := sample_state (sample_peer "alpha" 50 sample_status)
             (sample_world 3 ∅ ∅) in
  let cs := {| blockHeight := 3; witnesses := ∅ |} in
  let r1 := fail sample_config "NetworkError" CursorUndefined false s in
  let r2 := fail sample_config "NetworkError" CursorUndefined false
              (set_consensusState cs r1.2) in
  live_after r1 ∧ live_after r2 ∧
  reputation (peer_after r2) ≤ reputation (peer_after r1).
Proof.
  cbv zeta.
  pose proof (consecutive_failures_never_raise sample_config
                "NetworkError" "NetworkError" CursorUndefined CursorUndefined
                {| blockHeight := 3; witnesses := ∅ |}
                (sample_state (sample_peer "alpha" 50 sample_status)
                   (sample_world 3 ∅ ∅))) as H.
  cbv zeta in H. feed H.
  specialize (H (sample_clock_monotone 3 ∅ ∅)). feed H.
  assert (H1 : live_after
                 (fail sample_config "NetworkError" CursorUndefined false
                    (sample_state (sample_peer "alpha" 50 sample_status)
                       (sample_world 3 ∅ ∅)))) by computed.
  assert (H2 : live_after
                 (fail sample_config "NetworkError" CursorUndefined false
                    (set_consensusState {| blockHeight := 3; witnesses := ∅ |}
                       (fail sample_config "NetworkError" CursorUndefined false
                          (sample_state (sample_peer "alpha" 50 sample_status)
                             (sample_world 3 ∅ ∅))).2))) by computed.
  split; [exact H1|]. split; [exact H2|]. exact (H H1 H2).
Defined.

(** ** The grace period of failures *)

(** X8. How a streak of failures wears the reputation down: it is a step,
    not a slope. On a failure that is not the first, for as long as less
    than [maxFailureGracePeriod] has elapsed since the first one the
    reputation is the snapshot less 1, however many failures there were. Once
    the grace period has elapsed, a snapshot of 100 gives a reputation of 0
    (until twice the period has elapsed), and a lower snapshot a negative
    one: the peer is deleted, or kept at 0 if it is a witness. *)
Theorem fail_grace_period (cfg : BackoffConfig) (error : string)
    (cursor_arg : JsCursor) (s : St) (f : FirstFailure) :
  let p := _peer (this s) in
  let w := world s in
  let r := fail cfg error cursor_arg false s in
  let start := firstFailure_reputation f in
  let elapsed := reading w 1 - firstFailure_time f in
  let grace := maxFailureGracePeriod cfg in
  config_ok cfg →
  consecutiveFailures (status p) + 1 ≠ 1 →
  firstFailure (status p) = Some f →
  (0 ≤ elapsed < grace → reputation (peer_after r) = settled w p (start - 1)) ∧
  (grace ≤ elapsed < 2 * grace → start = 100 →
     r.1 = Normal tt ∧ reputation (peer_after r) = 0) ∧
  (grace ≤ elapsed → start < 100 →
     if is_witness w p then retained s r ∧ reputation (peer_after r) = 0
     else dropped s r).
Proof.
  cbv zeta. intros [Hg _] Hcf Hf. revert Hg Hcf Hf. enter s. subst s_ff.
  set (e := s_clk (S s_tk) - firstFailure_time f) in *.
  set (g := maxFailureGracePeriod cfg) in *.
  split; [|split].
  - intros He. assert (Hq : e / g = 0) by (apply Z.div_small; lia).
    revert Hq Hcf. subst e g. paths.
  - intros He Hs.
    assert (Hq : e / g = 1).
    { apply Z.le_antisymm.
      - cut (e / g < 2); [lia|]. apply Z.div_lt_upper_bound; lia.
      - apply Z.div_le_lower_bound; lia. }
    revert Hq Hcf Hs. subst e g. paths.
  - intros He Hs.
    assert (Hq : 1 ≤ e / g) by (apply Z.div_le_lower_bound; lia).
    revert Hq Hcf Hs. subst e g. store_facts.
Qed.

Lemma fail_grace_period_witness :
  let s := sample_state (sample_peer "alpha" 49 failing_status)
             (sample_world 3 ∅ ∅) in
  let r := fail sample_config "NetworkError" CursorUndefined false s in
  config_ok sample_config ∧
  firstFailure (status (_peer (this s))) =
    Some {| firstFailure_reputation := 50; firstFailure_time := 1000 |} ∧
  reputation (peer_after r) = 49.
Proof.
  cbv zeta.
  pose proof (fail_grace_period sample_config "NetworkError" CursorUndefined
                (sample_state (sample_peer "alpha" 49 failing_status)
                   (sample_world 3 ∅ ∅))
                {| firstFailure_reputation := 50; firstFailure_time := 1000 |})
    as H.
  cbv zeta in H.
  assert (Hc : config_ok sample_config) by computed.
  specialize (H Hc). feed H. specialize (H eq_refl). destruct H as (H & _).
  feed H. split; [exact Hc|]. split; [reflexivity|]. rewrite H. computed.
Defined.

(** ** Idle time *)

(** X9. The idle penalty charges whole points only and carries the rest
    over: after it, the idle time left uncharged (from the new [idle.time]
    to the time of the call) is at least 0 and less than [timePerPoint]. *)
Theorem idle_penalty_remainder (cfg : BackoffConfig) (cursor_arg : JsCursor)
    (s : St) (i : Idle) :
  let p := _peer (this s) in
  let w := world s in
  let h := blockHeight (consensusState w) in
  let p' := peer_after (success cfg false cursor_arg s) in
  let charged := idle_time i + idle_points cfg w i * timePerPoint cfg in
  config_ok cfg →
  capacity_drop s = false →
  idle (status p) = Some i →
  idle_localBlockHeight i ≠ h →
  idle (status p') = Some {| idle_time := charged; idle_localBlockHeight := h |} ∧
  0 ≤ reading w 2 - charged < timePerPoint cfg.
Proof.
  cbv zeta. intros Hcfg Hcap Hi Hh. split.
  - revert Hcap Hi Hh. unfold capacity_drop. enter s. subst s_idl.
    revert Hcap Hh. paths.
  - pose proof (Math_floor_div_spec (reading (world s) 2 - idle_time i)
                  (timePerPoint cfg) (timePerPoint_pos cfg Hcfg)).
    unfold idle_points. lia.
Qed.

Lemma idle_penalty_remainder_witness :
  let s := sample_state (sample_peer "alpha" 50 idle_status)
             (sample_world 4 ∅ ∅) in
  let i := {| idle_time := 999000; idle_localBlockHeight := 3 |} in
  let charged := idle_time i
                 + idle_points sample_config (world s) i
                   * timePerPoint sample_config in
  config_ok sample_config ∧ capacity_drop s = false ∧
  charged = 1002000 ∧
  0 ≤ reading (world s) 2 - charged < timePerPoint sample_config.
Proof.
  cbv zeta.
  pose proof (idle_penalty_remainder sample_config CursorNull
                (sample_state (sample_peer "alpha" 50 idle_status)
                   (sample_world 4 ∅ ∅))
                {| idle_time := 999000; idle_localBlockHeight := 3 |}) as H.
  cbv zeta in H.
  assert (Hc : config_ok sample_config) by computed.
  assert (Hd : capacity_drop
                 (sample_state (sample_peer "alpha" 50 idle_status)
                    (sample_world 4 ∅ ∅)) = false) by computed.
  specialize (H Hc Hd eq_refl). feed H. destruct H as [_ H].
  split; [exact Hc|]. split; [exact Hd|]. split; [computed | exact H].
Defined.

(** X10. Idle penalties add up to the penalty of the whole idle time: for a
    peer that is not a witness and survives two penalised successes in a
    row, the reputation lost over both is the floor of the time from the
    original [idle.time] to the second call over [timePerPoint], as if it
    had been charged once; nothing is lost to rounding in between. *)
Theorem idle_penalties_add_up (cfg : BackoffConfig) (cursor1 cursor2 : JsCursor)
    (cs : ConsensusState) (s : St) (i : Idle) :
  let p := _peer (this s) in
  let w := world s in
  let r1 := success cfg false cursor1 s in
  let s1 := set_consensusState cs r1.2 in
  let r2 := success cfg false cursor2 s1 in
  let total := (reading w 5 - idle_time i) / timePerPoint cfg in
  config_ok cfg →
  is_witness w p = false →
  has (witnesses cs) (peer_id p) = false →
  capacity_drop s = false →
  capacity_drop s1 = false →
  idle (status p) = Some i →
  idle_localBlockHeight i ≠ blockHeight (consensusState w) →
  blockHeight (consensusState w) ≠ blockHeight cs →
  live_after r1 →
  live_after r2 →
  reputation (peer_after r2) = reputation p - total ∧
  idle (status (peer_after r2)) =
    Some {| idle_time := idle_time i + total * timePerPoint cfg;
            idle_localBlockHeight := blockHeight cs |}.
Proof.
  cbv zeta. intros Hcfg Hw1 Hw2 Hc1 Hc2 Hi Hh1 Hh2 Hl1 Hl2.
  pose proof (timePerPoint_pos cfg Hcfg) as Htpp.
  destruct (success_penalised cfg cursor1 s i Hc1 Hi Hh1 Hl1)
    as (Hr1 & Hp1 & Hi1 & _ & Hid & Hclk & Htk).
  destruct (success_penalised cfg cursor2 _ _ Hc2 Hi1 Hh2 Hl2)
    as (Hr2 & Hp2 & Hi2 & _).
  assert (Hw2' : is_witness
            (world (set_consensusState cs (success cfg false cursor1 s).2))
            (_peer (this (set_consensusState cs (success cfg false cursor1 s).2)))
          = false).
  { unfold is_witness. cbn [set_consensusState set_world world consensusState
      witnesses this].
    change (peer_id (_peer (this (success cfg false cursor1 s).2)))
      with (peer_id (peer_after (success cfg false cursor1 s))).
    rewrite Hid. exact Hw2. }
  unfold settled in Hr1, Hr2. rewrite Hw1 in Hr1. rewrite Hw2' in Hr2.
  rewrite andb_false_r in Hr1, Hr2.
  assert (Hsum : idle_points cfg (world s) i
                 + idle_points cfg
                     (world (set_consensusState cs (success cfg false cursor1 s).2))
                     {| idle_time := idle_time i
                          + idle_points cfg (world s) i * timePerPoint cfg;
                        idle_localBlockHeight :=
                          blockHeight (consensusState (world s)) |}
                 = (reading (world s) 5 - idle_time i) / timePerPoint cfg).
  { unfold idle_points at 2. unfold Math_floor_div, reading.
    cbn [set_consensusState set_world world clock ticks idle_time].
    change (world (success cfg false cursor1 s).2)
      with (world_after (success cfg false cursor1 s)).
    rewrite Hclk, Htk.
    replace (clock (world s) (2 + (3 + ticks (world s)))
             - (idle_time i + idle_points cfg (world s) i * timePerPoint cfg))
      with (clock (world s) (5 + ticks (world s)) - idle_time i
            + (- idle_points cfg (world s) i) * timePerPoint cfg)
      by (simpl; lia).
    rewrite Z.div_add by lia. lia. }
  split.
  - rewrite Hr2.
    change (reputation (_peer (this
              (set_consensusState cs (success cfg false cursor1 s).2))))
      with (reputation (peer_after (success cfg false cursor1 s))).
    rewrite Hr1. lia.
  - rewrite Hi2, <- Hsum. cbn [idle_time]. f_equal. f_equal. lia.
Qed.

Lemma idle_penalties_add_up_witness :
  let s := sample_state (sample_peer "alpha" 50 idle_status)
             (sample_world 4 ∅ ∅) in
  let cs := {| blockHeight := 5; witnesses := ∅ |} in
  let r1 := success sample_config false CursorNull s in
  let r2 := success sample_config false CursorNull (set_consensusState cs r1.2) in
  live_after r1 ∧ live_after r2 ∧
  reputation (peer_after r1) = 49 ∧
  reputation (peer_after r2) = 48.
Proof.
  cbv zeta.
  pose proof (idle_penalties_add_up sample_config CursorNull CursorNull
                {| blockHeight := 5; witnesses := ∅ |}
                (sample_state (sample_peer "alpha" 50 idle_status)
                   (sample_world 4 ∅ ∅))
                {| idle_time := 999000; idle_localBlockHeight := 3 |}) as H.
  cbv zeta in H.
  do 5 feed H. specialize (H eq_refl). do 2 feed H.
  assert (H1 : live_after
                 (success sample_config false CursorNull
                    (sample_state (sample_peer "alpha" 50 idle_status)
                       (sample_world 4 ∅ ∅)))) by computed.
  assert (H2 : live_after
                 (success sample_config false CursorNull
                    (set_consensusState {| blockHeight := 5; witnesses := ∅ |}
                       (success sample_config false CursorNull
                          (sample_state (sample_peer "alpha" 50 idle_status)
                             (sample_world 4 ∅ ∅))).2))) by computed.
  destruct (H H1 H2) as [Hr _].
  split; [exact H1|]. split; [exact H2|]. split; [computed|].
  rewrite Hr. computed.
Defined.

(** ** Bounds of the backoff *)

(** X11. After a non-fatal failure that leaves the peer live, the backoff
    ends at most [maxFailure] after the call's last reading of the clock;
    and, for a [minFailure] and a count of failures that are not negative,
    at least [min maxFailure minFailure] after it. *)
Theorem fail_backoff_bounds (cfg : BackoffConfig) (error : string)
    (cursor_arg : JsCursor) (s : St) :
  let r := fail cfg error cursor_arg false s in
  let last := clock (world s) (pred (ticks (world_after r))) in
  let until := backoffUntil (status (peer_after r)) in
  live_after r →
  until ≤ last + maxFailure cfg ∧
  (0 ≤ minFailure cfg → 0 ≤ consecutiveFailures (status (_peer (this s))) →
   last + Z.min (maxFailure cfg) (minFailure cfg) ≤ until).
Proof.
  unfold live_after. enter s. destruct H as [H1 H2].
  assert (Hm : 0 ≤ minFailure cfg → 0 ≤ s_cf →
               minFailure cfg ≤ (s_cf + 1) * minFailure cfg) by nia.
  revert Hm H1 H2. paths; cbn [Nat.pred]; lia.
Qed.

Lemma fail_backoff_bounds_witness :
  let s := sample_state (sample_peer "alpha" 50 failing_status)
             (sample_world 3 ∅ ∅) in
  let r := fail sample_config "NetworkError" CursorUndefined false s in
  live_after r ∧
  backoffUntil (status (peer_after r)) ≤ 1002000 + 60000.
Proof.
  cbv zeta.
  assert (H1 : live_after
                 (fail sample_config "NetworkError" CursorUndefined false
                    (sample_state (sample_peer "alpha" 50 failing_status)
                       (sample_world 3 ∅ ∅)))) by computed.
  split; [exact H1|].
  exact (proj1 (fail_backoff_bounds sample_config "NetworkError"
                  CursorUndefined
                  (sample_state (sample_peer "alpha" 50 failing_status)
                     (sample_world 3 ∅ ∅)) H1)).
Defined.

(** X12. After a success that leaves the peer live, with [minIdle] and
    [maxIdle] not negative, the backoff ends between the time read for it and
    [maxIdle] later; when the idle penalty applies, it ends at least
    [min minIdle maxIdle] later (at least a minimal backoff). *)
Theorem success_backoff_bounds (cfg : BackoffConfig)
    (mergeEventsReceived : bool) (cursor_arg : JsCursor) (s : St) :
  let r := success cfg mergeEventsReceived cursor_arg s in
  let w := world s in
  let until := backoffUntil (status (peer_after r)) in
  0 ≤ minIdle cfg →
  0 ≤ maxIdle cfg →
  isDeleted (this_after r) = false →
  reading w 0 ≤ until ≤ reading w 0 + maxIdle cfg ∧
  (mergeEventsReceived = false →
   ∀ i, idle (status (_peer (this s))) = Some i →
        idle_localBlockHeight i ≠ blockHeight (consensusState w) →
        reading w 0 + Z.min (minIdle cfg) (maxIdle cfg) ≤ until).
Proof.
  enter s.
  assert (Hm : ∀ x, minIdle cfg ≤ minIdle cfg * Z.max 1 x) by (intros; nia).
  destruct s_idl as [[it ilbh]|].
  - specialize (Hm ((s_clk (S (S s_tk)) - it) / - (- maxIdleGracePeriod cfg / 100))).
    revert Hm H1. paths.
  - clear Hm. revert H1. paths.
Qed.

Lemma success_backoff_bounds_witness :
  let s := sample_state (sample_peer "alpha" 50 idle_status)
             (sample_world 4 ∅ ∅) in
  let r := success sample_config false CursorNull s in
  isDeleted (this_after r) = false ∧
  1000000 + 500 ≤ backoffUntil (status (peer_after r)) ≤ 1000000 + 10000.
Proof.
  cbv zeta.
  pose proof (success_backoff_bounds sample_config false CursorNull
                (sample_state (sample_peer "alpha" 50 idle_status)
                   (sample_world 4 ∅ ∅))) as H.
  cbv zeta in H. do 2 feed H.
  assert (H1 : isDeleted (this_after
                 (success sample_config false CursorNull
                    (sample_state (sample_peer "alpha" 50 idle_status)
                       (sample_world 4 ∅ ∅)))) = false) by computed.
  destruct (H H1) as [[_ Hu] Hl].
  split; [exact H1|]. split; [|exact Hu].
  exact (Hl eq_refl {| idle_time := 999000; idle_localBlockHeight := 3 |}
           eq_refl ltac:(simpl; lia)).
Defined.

(** ** Notifiers *)

(** X13. A gossip session ends the notification: if the last push of the
    peer is not ahead of the clock, and the clock never goes back, then after
    any [fail] or [success] that leaves the peer live [isNotifier] is
    false. *)
Theorem pull_clears_notifier (cfg : BackoffConfig) (c : Call) (s : St) :
  let r := handle cfg c s in
  let w := world s in
  monotone_clock w →
  lastPushAt (status (_peer (this s))) ≤ reading w 0 →
  live_after r →
  isNotifier (this_after r) = false.
Proof.
  unfold live_after, monotone_clock, isNotifier.
  destruct c as [error cursor_arg fatal|mergeEventsReceived cursor_arg];
    unfold handle; enter s; destruct H1 as [H1 H2];
    pose proof (H s_tk) as Hm0; clear H;
    revert H1 H2;
    repeat (run; try discriminate; branch_step);
    run; try discriminate; intros; apply Z.ltb_ge; lia.
Qed.

Lemma pull_clears_notifier_witness :
  let s := sample_state
             (sample_peer "alpha" 50
                {| backoffUntil := 0; lastPullAt := 10; lastPushAt := 20;
                   lastPullResult := "success"; cursor := CursorNull;
                   requiredBlockHeight := None; consecutiveFailures := 0;
                   firstFailure := None; idle := None |})
             (sample_world 3 ∅ ∅) in
  let r := handle sample_config (Success true CursorNull) s in
  isNotifier (this s) = true ∧ live_after r ∧
  isNotifier (this_after r) = false.
Proof.
  cbv zeta.
  pose proof (pull_clears_notifier sample_config (Success true CursorNull)
                (sample_state
                   (sample_peer "alpha" 50
                      {| backoffUntil := 0; lastPullAt := 10; lastPushAt := 20;
                         lastPullResult := "success"; cursor := CursorNull;
                         requiredBlockHeight := None; consecutiveFailures := 0;
                         firstFailure := None; idle := None |})
                   (sample_world 3 ∅ ∅))
                (sample_clock_monotone 3 ∅ ∅)) as H.
  cbv zeta in H. feed H.
  assert (H1 : live_after
                 (handle sample_config (Success true CursorNull)
                    (sample_state
                       (sample_peer "alpha" 50
                          {| backoffUntil := 0; lastPullAt := 10;
                             lastPushAt := 20; lastPullResult := "success";
                             cursor := CursorNull; requiredBlockHeight := None;
                             consecutiveFailures := 0; firstFailure := None;
                             idle := None |})
                       (sample_world 3 ∅ ∅)))) by computed.
  split; [computed|]. split; [exact H1 | exact (H H1)].
Defined.

(** ** The constructor *)

(** X14. The constructor rejects a [peer] that is not an object first,
    whatever the [worker]; then a [worker] that is not an object. When it
    returns, the instance holds the peer given, [id] is the id of that peer,
    the instance is not deleted, and a [delete] on it makes one deletion call
    to the collection, for that id. *)
Theorem constructor_outcome (peer : JsArg Peer) (worker : JsArg Worker) :
  (GossipPeer_new peer worker = inl PeerRequired ↔ is_object peer = false) ∧
  (GossipPeer_new peer worker = inl WorkerRequired ↔
     is_object peer = true ∧ is_object worker = false) ∧
  (∀ g, GossipPeer_new peer worker = inr g →
     peer = ArgObject (_peer (constructed_instance g)) ∧
     constructed_id g = peer_id (_peer (constructed_instance g)) ∧
     isDeleted (constructed_instance g) = false ∧
     (∀ s, this s = constructed_instance g →
        calls (world (delete_ s).2)
        = PeersDelete (constructed_id g) :: calls (world s))).
Proof.
  split; [|split].
  - destruct peer as [| | |p]; destruct worker as [| | |wk]; simpl;
      try destruct (worker_ledgerNode wk);
      intuition congruence.
  - destruct peer as [| | |p]; destruct worker as [| | |wk]; simpl;
      try destruct (worker_ledgerNode wk);
      intuition congruence.
  - intros g Hg. destruct peer as [| | |p]; try discriminate.
    destruct worker as [| | |wk]; try discriminate. simpl in Hg.
    destruct (worker_ledgerNode wk); [|discriminate].
    injection Hg as <-. simpl. repeat split.
    intros s Hs. rewrite (delete_fresh s) by (rewrite Hs; reflexivity).
    simpl. rewrite Hs. reflexivity.
Qed.

(** ** The direction of the reputation *)

(** X15. A success without merge events never raises the reputation: for a
    reputation that is not negative, an idle time that is not ahead of the
    clock and a clock that never goes back, the reputation the instance holds
    after the call, on every path, is at most what it was. *)
Theorem success_without_events_never_raises (cfg : BackoffConfig)
    (cursor_arg : JsCursor) (s : St) :
  let p := _peer (this s) in
  let w := world s in
  config_ok cfg →
  monotone_clock w →
  0 ≤ reputation p →
  (∀ i, idle (status p) = Some i → idle_time i ≤ reading w 0) →
  reputation (peer_after (success cfg false cursor_arg s)) ≤ reputation p.
Proof.
  cbv zeta. intros Hcfg Hmono Hrep Hidl.
  pose proof (timePerPoint_pos cfg Hcfg) as Htpp.
  unfold monotone_clock in *. revert Hmono Hrep Hidl. enter s.
  pose proof (Hmono s_tk) as Hm0. pose proof (Hmono (S s_tk)) as Hm1.
  clear Hmono.
  destruct s_idl as [[it ilbh]|].
  - specialize (Hidl _ eq_refl). simpl in Hidl.
    pose proof (Z.div_pos (s_clk (S (S s_tk)) - it) (timePerPoint cfg)) as Hq.
    unfold timePerPoint, Math_ceil_div in *.
    revert Hq. paths.
  - clear Hidl Htpp. paths.
Qed.

Lemma success_without_events_never_raises_witness :
  let s := sample_state (sample_peer "alpha" 50 idle_status)
             (sample_world 4 ∅ ∅) in
  config_ok sample_config ∧
  reputation (peer_after (success sample_config false CursorNull s)) ≤ 50.
Proof.
  cbv zeta.
  assert (Hc : config_ok sample_config) by computed.
  split; [exact Hc|].
  apply (success_without_events_never_raises sample_config CursorNull
           (sample_state (sample_peer "alpha" 50 idle_status)
              (sample_world 4 ∅ ∅)) Hc (sample_clock_monotone 4 ∅ ∅)).
  - computed.
  - intros i Hi. injection Hi as <-. computed.
Defined.

(** ** Streaks of failures *)

Lemma fail_increments (cfg : BackoffConfig) (error : string)
    (cursor_arg : JsCursor) (s : St) :
  consecutiveFailures (status (peer_after (fail cfg error cursor_arg false s)))
  = consecutiveFailures (status (_peer (this s))) + 1.
Proof. enter s. paths. Qed.

(** X16. [consecutiveFailures] counts the streak: after any number of
    non-fatal failures in a row that leave the instance live, it has grown by
    that number. *)
Theorem failure_streak_counts (cfg : BackoffConfig)
    (l : list (ConsensusState * Call)) (s : St) :
  let s' := sessions cfg l s in
  forallb (λ x, is_failure x.2) l = true →
  isDeleted (this s') = false →
  consecutiveFailures (status (_peer (this s')))
  = consecutiveFailures (status (_peer (this s))) + Z.of_nat (length l).
Proof.
  cbv zeta. revert s. induction l as [|[cs c] l IH]; intros s Hall Hlive.
  - simpl. lia.
  - simpl in Hall. apply andb_true_iff in Hall as [Hc Hall].
    simpl in Hlive |- *. destruct (isDeleted (this s)) eqn:Hd; [congruence|].
    rewrite (IH _ Hall Hlive).
    destruct c as [error cursor_arg fatal|]; [|discriminate].
    destruct fatal; [discriminate|]. simpl.
    pose proof (fail_increments cfg error cursor_arg (set_consensusState cs s)) as Hi.
    unfold peer_after in Hi. rewrite Hi. simpl. lia.
Qed.

Lemma failure_streak_counts_witness :
  let s := sample_state (sample_peer "alpha" 50 sample_status)
             (sample_world 3 ∅ ∅) in
  let cs := {| blockHeight := 3; witnesses := ∅ |} in
  let l := [(cs, Fail "NetworkError" CursorUndefined false);
            (cs, Fail "NetworkError" CursorUndefined false);
            (cs, Fail "NetworkError" CursorUndefined false)] in
  isDeleted (this (sessions sample_config l s)) = false ∧
  consecutiveFailures (status (_peer (this (sessions sample_config l s)))) = 3.
Proof.
  cbv zeta.
  pose proof (failure_streak_counts sample_config
                [({| blockHeight := 3; witnesses := ∅ |},
                  Fail "NetworkError" CursorUndefined false);
                 ({| blockHeight := 3; witnesses := ∅ |},
                  Fail "NetworkError" CursorUndefined false);
                 ({| blockHeight := 3; witnesses := ∅ |},
                  Fail "NetworkError" CursorUndefined false)]
                (sample_state (sample_peer "alpha" 50 sample_status)
                   (sample_world 3 ∅ ∅)) eq_refl) as H.
  cbv zeta in H.
  assert (H1 : isDeleted (this (sessions sample_config
                 [({| blockHeight := 3; witnesses := ∅ |},
                   Fail "NetworkError" CursorUndefined false);
                  ({| blockHeight := 3; witnesses := ∅ |},
                   Fail "NetworkError" CursorUndefined false);
                  ({| blockHeight := 3; witnesses := ∅ |},
                   Fail "NetworkError" CursorUndefined false)]
                 (sample_state (sample_peer "alpha" 50 sample_status)
                    (sample_world 3 ∅ ∅)))) = false) by computed.
  split; [exact H1|]. rewrite (H H1). reflexivity.
Defined.
